(** * 3pUTR_annotation: the peak-to-UTR decision procedure and the batch pipeline

    Shallow embedding of
    - [peaks_to_UTR.py]: the script that walks the forward broad peaks, asks
      the feature database for the features near each peak and appends a
      [three_prime_UTR] feature per accepted gene to [out];
    - [peaks2utr/__init__.py]: the pre-run checks of [_main], the split of
      the peaks into batches and the loop that folds the workers' results
      into [Annotations].

    Python integers are unbounded: coordinates are [Z].  Dictionaries are
    [gmap]s, lists are lists, [print] is a list of messages in the state. *)

From stdpp Require Import base strings list gmap fin_maps.
From Stdlib Require Import ZArith Lia Permutation.

Local Open Scope string_scope.
Local Open Scope list_scope.
Local Open Scope Z_scope.

(** ** gffutils features and peak rows *)

(** A [gffutils.Feature].  [id] is the primary key of a database row; a
    feature that the script builds itself has no key (the constructor's
    default), written here as the empty string: nothing reads it. *)
Record Feature := mkFeature {
  id : string;
  seqid : string;
  source : string;
  featuretype : string;
  start : Z;
  end_ : Z;
  score : string;
  strand : string;
  frame : string;
  attributes : gmap string (list string)
}.

(** [Feature.chrom] is gffutils' alias of [seqid]. *)
Definition chrom (f : Feature) : string := seqid f.

(** [Peak = namedtuple("Peak", 'chr start end name score strand signalValue
    pValue qValue')].  The script reads [start] and [end] through [int(..)]
    wherever it compares them, and gffutils does the same with the [end] it
    is given: the record holds the integers.  Four fields carry a [p] in
    front, [Feature] having a [start], [end], [score] and [strand] of its
    own. *)
Record Peak := mkPeak {
  chr : string;
  pstart : Z;
  pend : Z;
  name : string;
  pscore : string;
  pstrand : string;
  signalValue : string;
  pValue : string;
  qValue : string
}.

#[global] Instance Feature_eq_dec : EqDecision Feature.
Proof. solve_decision. Defined.

#[global] Instance Peak_eq_dec : EqDecision Peak.
Proof. solve_decision. Defined.

Module Script.

(** [# User parameter] *)
Definition maxDistanceFromTranscript : Z := 200.

Definition forward_broad_peaks : string := "forward_peaks.broadPeak".
Definition reverse_broad_peaks : string := "reverse_peaks.broadPeak".

(** [strands = [(forward_broad_peaks, '+'), (reverse_broad_peaks, '-')]]:
    bound at module level and read nowhere. *)
Definition strands : list (string * string) :=
  [(forward_broad_peaks, "+"); (reverse_broad_peaks, "-")].

(** The feature database, as the rows in the order the database yields
    them.  [db.region(seqid, start, end, strand)] is gffutils' query, a
    library outside the repository: the rows of that sequence and strand
    that overlap [start..end] ([completely_within] is left at False).  What
    the library returns is among the rows this filter keeps; the
    properties below hold of any list of rows or of every row kept. *)
Definition FeatureDB := list Feature.

Definition in_region (seqid0 : string) (start0 end0 : Z) (strand0 : string)
    (f : Feature) : bool :=
  bool_decide (seqid f = seqid0) && bool_decide (strand f = strand0)
  && (start f <=? end0) && (end_ f >=? start0).

Definition region (db : FeatureDB) (seqid0 : string) (start0 end0 : Z)
    (strand0 : string) : list Feature :=
  List.filter (in_region seqid0 start0 end0 strand0) db.

(** What the script prints, one constructor per [print] call. *)
Inductive Msg :=
  | AlreadyAnnotated (peak_name : string)
  | WhollyContained (peak_name gene_id : string)
  | Overlapping (peak_name gene_id next_gene_id : string)
  | CorrespondsToUTR (peak_name gene_id : string)
  | UTRRange (gene_end peak_end : Z)
  | NoFeaturesFound (peak_name : string).

#[global] Instance Msg_eq_dec : EqDecision Msg.
Proof. solve_decision. Defined.

(** The exception the script can die of on well-typed rows: the truth
    value of an object whose [__len__] is negative. *)
Inductive Exn :=
  | ValueError.

#[global] Instance Exn_eq_dec : EqDecision Exn.
Proof. solve_decision. Defined.

(** The two things the loop mutates, [out] (one feature per appended line)
    and standard output, and the exception that has ended the run, if
    any. *)
Record State := mkState {
  out : list Feature;
  stdout : list Msg;
  raised : option Exn
}.

Definition print (m : Msg) (st : State) : State :=
  {| out := out st; stdout := stdout st ++ [m]; raised := raised st |}.

Definition emit (f : Feature) (st : State) : State :=
  {| out := out st ++ [f]; stdout := stdout st; raised := raised st |}.

Definition raise (e : Exn) (st : State) : State :=
  {| out := out st; stdout := stdout st; raised := Some e |}.

(** Lines 51-65: the attributes and the feature built for an accepted gene. *)
Definition utr_attrs (gene : Feature) : gmap string (list string) :=
  <["colour" := ["3"]]>
    (<["Parent" := [id gene]]>
      (<["ID" := [id gene +:+ "_UTR"]]> (attributes gene))).

Definition utr_feature (gene : Feature) (peak : Peak) : Feature :=
  {| id := "";
     seqid := chrom gene;
     source := "3pUTR_annotation";
     featuretype := "three_prime_UTR";
     start := end_ gene;
     end_ := pend peak;
     score := ".";
     strand := strand gene;
     frame := ".";
     attributes := utr_attrs gene |}.

(** Line 41. *)
Definition wholly_contained (peak : Peak) (gene : Feature) : bool :=
  (start gene <? pstart peak) && (end_ gene >? pend peak).

(** Lines 44-45: [Some next] when the peak reaches over the end of [gene]
    and the start of [genes[idx + 1]]. *)
Definition overlapping_next (peak : Peak) (genes : list Feature) (idx : nat)
    (gene : Feature) : option Feature :=
  match genes !! (idx + 1)%nat with
  | Some next =>
      if (pstart peak <? end_ gene) && (pend peak >? start next)
      then Some next else None
  | None => None
  end.

(** Line 48. *)
Definition extends_past (peak : Peak) (gene : Feature) : bool :=
  pend peak >? end_ gene.

(** Body of [for idx, gene in enumerate(genes)] (lines 41-66). *)
Definition gene_body (peak : Peak) (genes : list Feature) (idx : nat)
    (gene : Feature) (st : State) : State :=
  if wholly_contained peak gene then
    print (WhollyContained (name peak) (id gene)) st
  else
    match overlapping_next peak genes idx gene with
    | Some next => print (Overlapping (name peak) (id gene) (id next)) st
    | None =>
        if extends_past peak gene then
          emit (utr_feature gene peak)
            (print (UTRRange (end_ gene) (pend peak))
              (print (CorrespondsToUTR (name peak) (id gene)) st))
        else st
    end.

(** The [enumerate] loop: [todo] is what is left of [genes], [idx] the index
    of its head. *)
Fixpoint gene_loop (peak : Peak) (genes : list Feature) (idx : nat)
    (todo : list Feature) (st : State) : State :=
  match todo with
  | [] => st
  | gene :: todo' =>
      gene_loop peak genes (S idx) todo' (gene_body peak genes idx gene st)
  end.

Definition is_featuretype (t : string) (f : Feature) : bool :=
  bool_decide (featuretype f = t).

(** Lines 29-34. *)
Definition features_near (db : FeatureDB) (peak : Peak) : list Feature :=
  region db (chr peak)
    (pstart peak - maxDistanceFromTranscript)
    (pend peak + maxDistanceFromTranscript) "+".

(** [Feature.__len__]: the number of positions from [start] to [end]. *)
Definition feature_len (f : Feature) : Z := end_ f - start f + 1.

(** The truth value of a feature is that of its length: false at zero,
    true above, and Python raises ValueError on a negative length. *)
Definition truth_value (f : Feature) : option bool :=
  if feature_len f <? 0 then None
  else Some (negb (feature_len f =? 0)).

(** [any(fs)]: the truth values are taken from the left, up to the first
    true one. *)
Fixpoint any_ (fs : list Feature) : option bool :=
  match fs with
  | [] => Some false
  | f :: fs' =>
      match truth_value f with
      | None => None
      | Some true => Some true
      | Some false => any_ fs'
      end
  end.

(** Line 36: [any([f for f in features if f.featuretype ==
    'three_prime_UTR'])]. *)
Definition already_annotated (features : list Feature) : option bool :=
  any_ (List.filter (is_featuretype "three_prime_UTR") features).

(** Lines 35-69 on the features found. *)
Definition annotate (features : list Feature) (peak : Peak) (st : State)
    : State :=
  match features with
  | [] => print (NoFeaturesFound (name peak)) st
  | _ :: _ =>
      match already_annotated features with
      | None => raise ValueError st
      | Some true => print (AlreadyAnnotated (name peak)) st
      | Some false =>
          let genes := List.filter (is_featuretype "gene") features in
          gene_loop peak genes 0 genes st
      end
  end.

(** Body of [for peak in broad_peaks]; nothing runs after an exception. *)
Definition peak_body (db : FeatureDB) (st : State) (peak : Peak) : State :=
  match raised st with
  | Some _ => st
  | None => annotate (features_near db peak) peak st
  end.

Definition peak_loop (db : FeatureDB) (peaks : list Peak) (st : State)
    : State :=
  fold_left (peak_body db) peaks st.

(** The script up to line 69: [files] gives the rows of a peak file by
    name.  Only [forward_broad_peaks] is opened ([# TODO adapt for reverse
    strand as well]). *)
Definition script (db : FeatureDB) (files : string -> list Peak) : State :=
  peak_loop db (files forward_broad_peaks)
    {| out := []; stdout := []; raised := None |}.

(** Lines 71-72: [three_prime_UTRs.gff] is written when the loop has come
    to its end, and holds [out]. *)
Definition three_prime_UTRs_gff (db : FeatureDB) (files : string -> list Peak)
    : option (list Feature) :=
  match raised (script db files) with
  | Some _ => None
  | None => Some (out (script db files))
  end.

(** What one gene contributes to [out]: the pure reading of [gene_body]. *)
Definition emitted (peak : Peak) (genes : list Feature) (idx : nat)
    (gene : Feature) : option Feature :=
  if wholly_contained peak gene then None
  else match overlapping_next peak genes idx gene with
       | Some _ => None
       | None =>
           if extends_past peak gene then Some (utr_feature gene peak)
           else None
       end.

(** What the genes from [todo] on contribute, in order. *)
Fixpoint emitted_from (peak : Peak) (genes : list Feature) (idx : nat)
    (todo : list Feature) : list Feature :=
  match todo with
  | [] => []
  | gene :: todo' =>
      match emitted peak genes idx gene with
      | Some r => r :: emitted_from peak genes (S idx) todo'
      | None => emitted_from peak genes (S idx) todo'
      end
  end.

Definition initial : State := {| out := []; stdout := []; raised := None |}.

(** The records and the messages one peak adds, given the features found
    near it. *)
Definition records (features : list Feature) (peak : Peak) : list Feature :=
  out (annotate features peak initial).

Definition messages (features : list Feature) (peak : Peak) : list Msg :=
  stdout (annotate features peak initial).

Definition genes_of (features : list Feature) : list Feature :=
  List.filter (is_featuretype "gene") features.

(** Some row near the peak is a [three_prime_UTR]. *)
Definition has_utr (features : list Feature) : bool :=
  existsb (is_featuretype "three_prime_UTR") features.

(** A record belongs to a gene through its [Parent] attribute. *)
Definition record_of (gene r : Feature) : Prop :=
  attributes r !! "Parent" = Some [id gene].

(** The database's primary key: no two rows share an id. *)
Definition unique_ids (fs : list Feature) : Prop := NoDup (id <$> fs).

End Script.

(** ** Fixtures *)

Module Fixtures.

Definition row (id0 type0 : string) (s e : Z) (strand0 : string)
    (attrs : gmap string (list string)) : Feature :=
  {| id := id0; seqid := "chr1"; source := "ref"; featuretype := type0;
     start := s; end_ := e; score := "."; strand := strand0; frame := ".";
     attributes := attrs |}.

Definition gene (id0 : string) (s e : Z) : Feature :=
  row id0 "gene" s e "+" {[ "ID" := [id0] ]}.

Definition broad_peak (name0 : string) (s e : Z) : Peak :=
  {| chr := "chr1"; pstart := s; pend := e; name := name0; pscore := "0";
     pstrand := "."; signalValue := "1.0"; pValue := "1.0"; qValue := "1.0" |}.

(** Two neighbours and a peak over the gap between them and past the
    second. *)
Definition gene_A : Feature := gene "A" 100 500.
Definition gene_B : Feature := gene "B" 600 800.
Definition db_neighbours : list Feature := [gene_A; gene_B].
Definition peak_over_gap : Peak := broad_peak "forward_peak_1" 400 900.

(** A gene that already has its UTR, a second gene behind it, and a peak
    past the end of the second. *)
Definition gene_C : Feature := gene "C" 100 1000.
Definition utr_C : Feature :=
  row "C_UTR" "three_prime_UTR" 1001 1100 "+"
    {[ "ID" := ["C_UTR"]; "Parent" := ["C"] ]}.
Definition gene_D : Feature := gene "D" 1150 1400.
Definition db_annotated : list Feature := [gene_C; utr_C; gene_D].
Definition peak_past_D : Peak := broad_peak "forward_peak_2" 1190 1500.

(** The gene and the peak of the extension example. *)
Definition gene_G : Feature := gene "G" 100 1000.
Definition db_single : list Feature := [gene_G].
Definition peak_900_1200 : Peak := broad_peak "forward_peak_3" 900 1200.
Definition peak_inside : Peak := broad_peak "forward_peak_4" 400 600.

(** An annotation without gene rows: only an exon is near the peak. *)
Definition exon_E : Feature :=
  row "E" "exon" 100 1000 "+" {[ "ID" := ["E"]; "Parent" := ["mRNA1"] ]}.
Definition db_exon_only : list Feature := [exon_E].

(** A gene that carries a colour of its own. *)
Definition gene_H : Feature :=
  row "H" "gene" 100 1000 "+"
    {[ "ID" := ["H"]; "Name" := ["hox"]; "colour" := ["5"] ]}.
Definition db_coloured : list Feature := [gene_H].

(** A reverse-strand gene and a reverse peak past its start. *)
Definition gene_R : Feature :=
  row "R" "gene" 1000 2000 "-" {[ "ID" := ["R"] ]}.
Definition db_reverse : list Feature := [gene_R].
Definition reverse_peak : Peak := broad_peak "reverse_peak_1" 800 1100.
Definition files_reverse (fn : string) : list Peak :=
  if bool_decide (fn = Script.reverse_broad_peaks) then [reverse_peak] else [].

End Fixtures.

Module Main.

(** ** [_main]: arguments, pre-run checks, stages *)

(** The namespace [prepare_argparser] produces. *)
Record Args := mkArgs {
  GFF_IN : string;
  BAM_IN : string;
  max_distance : Z;
  override_utr : bool;
  extend_utr : bool;
  five_prime_ext : Z;
  skip_soft_clip : bool;
  min_pileups : Z;
  min_poly_tail : Z;
  processors : Z;
  force : bool;
  output : option string;
  keep_cache : bool
}.

(** What [_main] does to the world, in order.  [BAMSplit] to
    [WriteSummaryStats] are the stages of lines 143-182. *)
Inductive Event :=
  | LogInfo (msg : string)
  | LogError (msg : string)
  | Mkdir (dir : string)
  | BAMSplit (bam_basename : string)
  | CreateDb (gff_in : string)
  | CallPeaks (bam_basename strand : string)
  | ProcessPeaks
  | MergeAndSort (new_gff_fn : string)
  | WriteSummaryStats
  | Rmtree (dir : string).

(** How [_main] ends: through [sys.exit], or with an exception that
    nothing catches. *)
Inductive Outcome :=
  | SystemExit (status : Z)
  | NameError (name : string).

(** What [argparser.parse_args()] does (line 122): it returns the
    namespace, or leaves through [sys.exit] on its own (status 2 on a usage
    error, 0 after [--help] or [--version]). *)
Inductive Parse :=
  | Parsed (args : Args)
  | ParserExit (status : Z).

(** The stages that do the annotation work, from pre-processing on. *)
Definition is_work (e : Event) : bool :=
  match e with
  | BAMSplit _ | CreateDb _ | CallPeaks _ _ | ProcessPeaks
  | MergeAndSort _ | WriteSummaryStats => true
  | LogInfo _ | LogError _ | Mkdir _ | Rmtree _ => false
  end.

Section Pipeline.

(** [constants.LOG_DIR] and [constants.CACHE_DIR]; [gff_basename_of] is
    [os.path.basename(os.path.splitext(..)[0])].  A keyboard interrupt is a
    signal that can arrive at any moment and is not part of the embedding. *)
Variables LOG_DIR CACHE_DIR : string.
Variable gff_basename_of : string -> string.

(** The file system is the set of paths that exist. *)
Definition mkdir_if_missing (what dir : string) (fs : gset string)
    : list Event * gset string :=
  if bool_decide (dir ∈ fs) then ([], fs)
  else ([LogInfo what; Mkdir dir], {[dir]} ∪ fs).

(** [gff_basename + ".new.gff" if not args.output else args.output]: an
    empty output name counts as none. *)
Definition new_gff_fn (args : Args) : string :=
  match output args with
  | Some o => if bool_decide (o = "") then gff_basename_of (GFF_IN args) +:+ ".new.gff" else o
  | None => gff_basename_of (GFF_IN args) +:+ ".new.gff"
  end.

(** Lines 131-137; [Some status] is [sys.exit(status)] reached in the
    checks. *)
Definition perform_checks (fs : gset string) (args : Args)
    : list Event * option Z :=
  if bool_decide (new_gff_fn args ∈ fs) && negb (force args) then
    ([LogError (new_gff_fn args +:+
        " already exists. Re-run with -f flag to force overwrite of output files. Aborting.")],
     Some 1)
  else if override_utr args && extend_utr args then
    ([LogError
        "Only one of --extend-utr and --override-utr can be used simultaneously. Aborting."],
     Some 1)
  else ([], None).

(** The [finally] clause when [args] is bound. *)
Definition clear_cache (args : Args) : list Event :=
  if keep_cache args then []
  else [LogInfo "Clearing cache."; Rmtree CACHE_DIR].

(** [_main] from the moment [parse_args] has returned [args].  After the
    checks, line 143 reads [bam_basename], a name bound neither in [_main]
    nor in the module: NameError is raised before [BAMSplitter] is called,
    no [except] clause takes it, the [finally] clause runs and the
    exception leaves [_main]. *)
Definition _main (fs : gset string) (args : Args) : list Event * Outcome :=
  let '(ev_log, fs1) := mkdir_if_missing "Make .log directory" LOG_DIR fs in
  let '(ev_cache, fs2) := mkdir_if_missing "Make .cache directory" CACHE_DIR fs1 in
  match perform_checks fs2 args with
  | (ev_checks, Some status) =>
      (ev_log ++ ev_cache ++ ev_checks ++ clear_cache args, SystemExit status)
  | (ev_checks, None) =>
      (ev_log ++ ev_cache ++ ev_checks ++ clear_cache args,
       NameError "bam_basename")
  end.

(** [_main] whatever [parse_args] does.  When the parser leaves on its
    own, [args] is not bound: the [finally] clause reads [args.keep_cache],
    catches the NameError of that and passes, so the directories made are
    left as they are. *)
Definition _main_parsing (fs : gset string) (parsed : Parse)
    : list Event * Outcome :=
  match parsed with
  | Parsed args => _main fs args
  | ParserExit status =>
      let '(ev_log, fs1) := mkdir_if_missing "Make .log directory" LOG_DIR fs in
      let '(ev_cache, _) :=
        mkdir_if_missing "Make .cache directory" CACHE_DIR fs1 in
      (ev_log ++ ev_cache, SystemExit status)
  end.

End Pipeline.

(** ** Batches *)

(** [math.ceil(a / b)]; Python raises ZeroDivisionError at [b = 0].  The
    quotient is a float in the source; for counts of peaks it is far from
    the sizes at which its ceiling could differ from the integer one. *)
Definition ceil_div (a b : Z) : option Z :=
  if b =? 0 then None else Some (- ((- a) / b)).

Section Batches.
Context {A : Type}.

(** Modelled from the spec: the loop of [iter_batches], one batch of [n]
    consecutive elements per unit of fuel. *)
Fixpoint iter_batches_fuel (fuel : nat) (l : list A) (n : nat)
    : list (list A) :=
  match fuel with
  | O => []
  | S fuel' =>
      match l with
      | [] => []
      | _ :: _ => take n l :: iter_batches_fuel fuel' (drop n l) n
      end
  end.

(** Modelled from the spec: [iter_batches] ([peaks2utr/utils.py]) is not
    among the sources.  Section 4.1: the collection is split by count into
    consecutive batches of the given size, in load order; a size that is
    not positive gives no batch.  One batch is cut per unit of fuel, and a
    list never needs more than its length. *)
Definition iter_batches (l : list A) (n : Z) : list (list A) :=
  if n <=? 0 then [] else iter_batches_fuel (length l) l (Z.to_nat n).

(** Line 162: [iter_batches(peaks, math.ceil(total_peaks/args.processors))]. *)
Definition batches (peaks : list A) (processors : Z)
    : option (list (list A)) :=
  match ceil_div (Z.of_nat (length peaks)) processors with
  | Some size => Some (iter_batches peaks size)
  | None => None
  end.

End Batches.

(** ** Results and their aggregation *)

(** Modelled from the spec: [models.UTR] is not among the sources; the
    test builds it from a start and an end and reads its range. *)
Record UTR := mkUTR {
  utr_start : Z;
  utr_end : Z
}.

(** Modelled from the spec: the flag set of section 3, one bit per flag. *)
Record Flags := mkFlags {
  zero_coverage_warning : bool;
  truncated : bool;
  extended_existing : bool
}.

(** Modelled from the spec: the records the workers send
    ([peaks2utr/annotations.py]) are not among the sources.  Section 3: an
    annotation record holds the UTR and its flags; it is keyed by the gene
    id in the dictionary that carries it, and keeps the [signal_value] of
    the peak it comes from, which the tie-break reads (only its order
    matters). *)
Record AnnotationRecord := mkRecord {
  utr : UTR;
  flags : Flags;
  peak_signal : Z
}.

#[global] Instance UTR_eq_dec : EqDecision UTR.
Proof. solve_decision. Defined.
#[global] Instance Flags_eq_dec : EqDecision Flags.
Proof. solve_decision. Defined.
#[global] Instance AnnotationRecord_eq_dec : EqDecision AnnotationRecord.
Proof. solve_decision. Defined.

(** What a worker puts on the queue for one peak, as [_main] and the test
    tell them apart: [None], the [NoNearbyFeatures] marker, a zero-coverage
    outcome, or a dictionary from gene ids to records. *)
Inductive Result :=
  | RNone
  | NoNearbyFeatures
  | PotentialUTRZeroCoverage (named : option (string * AnnotationRecord))
  | Records (d : gmap string AnnotationRecord).

(** [if result:]. *)
Definition truthy (r : Result) : bool :=
  match r with
  | RNone => false
  | NoNearbyFeatures => true
  | PotentialUTRZeroCoverage _ => true
  | Records d => negb (bool_decide (d = ∅))
  end.

(** Modelled from the spec: the class [Annotations] is not among the
    sources.  [_main] reads and writes its [no_features_counter] and calls
    its [update]; section 3 gives it the records by gene id and the
    zero-coverage counter. *)
Record Annotations := mkAnnotations {
  data : gmap string AnnotationRecord;
  no_features_counter : nat;
  zero_coverage_count : nat
}.

(** Modelled from the spec: the length of a record's range. *)
Definition utr_length (r : AnnotationRecord) : Z :=
  utr_end (utr r) - utr_start (utr r).

(** Modelled from the spec: the flags of a record raised by those of a
    second record for the same gene (section 3: the merge upgrades a flag
    when a second peak corroborates the gene). *)
Definition flags_union (f1 f2 : Flags) : Flags :=
  {| zero_coverage_warning := zero_coverage_warning f1 || zero_coverage_warning f2;
     truncated := truncated f1 || truncated f2;
     extended_existing := extended_existing f1 || extended_existing f2 |}.

Definition upgrade (r : AnnotationRecord) (fl : Flags) : AnnotationRecord :=
  {| utr := utr r; flags := flags_union (flags r) fl;
     peak_signal := peak_signal r |}.

(** Modelled from the spec: the tie-break of section 4.3.  The longer range
    wins; at equal length the higher signal wins; at equal length and
    signal the record seen first stays, with its flags upgraded (section
    3). *)
Definition tie_break (old new : AnnotationRecord) : AnnotationRecord :=
  if utr_length old <? utr_length new then new
  else if (utr_length new =? utr_length old) && (peak_signal old <? peak_signal new)
       then new
  else if (utr_length new =? utr_length old) && (peak_signal new =? peak_signal old)
       then upgrade old (flags new)
       else old.


Definition merge_data (d1 d2 : gmap string AnnotationRecord)
    : gmap string AnnotationRecord :=
  union_with (fun old new => Some (tie_break old new)) d1 d2.

(** Modelled from the spec: [Annotations.update]
    ([peaks2utr/annotations.py]) is not among the sources.  Section 4.6: a
    record is inserted, through the tie-break when its gene already has
    one; a zero-coverage outcome is counted, and recorded when it names a
    gene. *)
Definition update (a : Annotations) (r : Result) : Annotations :=
  match r with
  | Records d =>
      {| data := merge_data (data a) d;
         no_features_counter := no_features_counter a;
         zero_coverage_count := zero_coverage_count a |}
  | PotentialUTRZeroCoverage named =>
      {| data := match named with
                 | Some (g, rec) => merge_data (data a) {[ g := rec ]}
                 | None => data a
                 end;
         no_features_counter := no_features_counter a;
         zero_coverage_count := S (zero_coverage_count a) |}
  | RNone | NoNearbyFeatures => a
  end.

(** Lines 170-175: the body of the loop over the queue. *)
Definition aggregate_step (annotations : Annotations) (result : Result)
    : Annotations :=
  if truthy result then
    match result with
    | NoNearbyFeatures =>
        {| data := data annotations;
           no_features_counter := S (no_features_counter annotations);
           zero_coverage_count := zero_coverage_count annotations |}
    | _ => update annotations result
    end
  else annotations.

(** Lines 167-175 over the results in the order they arrive. *)
Definition aggregate (results : list Result) : Annotations :=
  fold_left aggregate_step results
    {| data := ∅; no_features_counter := 0; zero_coverage_count := 0 |}.







End Main.

Module MainFixtures.
Import Main.

Definition args_both_flags : Args :=
  {| GFF_IN := "genes.gff"; BAM_IN := "reads.bam"; max_distance := 200;
     override_utr := true; extend_utr := true; five_prime_ext := 0;
     skip_soft_clip := false; min_pileups := 10; min_poly_tail := 10;
     processors := 1; force := false; output := None; keep_cache := false |}.

Definition basename_stub (path : string) : string := "genes".







Definition five_peaks : list Peak :=
  [ Fixtures.broad_peak "forward_peak_1" 100 200;
    Fixtures.broad_peak "forward_peak_2" 300 400;
    Fixtures.broad_peak "forward_peak_3" 500 600;
    Fixtures.broad_peak "forward_peak_4" 700 800;
    Fixtures.broad_peak "forward_peak_5" 900 1000 ].

End MainFixtures.

(** ** Readings of the script's state *)

Module ScriptViews.
Import Script.

(** The message that announces a record (line 49). *)
Definition is_corresponds (m : Msg) : bool :=
  match m with CorrespondsToUTR _ _ => true | _ => false end.

(** The [Parent] attribute of a record. *)
Definition parent (r : Feature) : option (list string) :=
  attributes r !! "Parent".

(** What one peak of the file adds to [out]. *)
Definition per_peak_records (db : FeatureDB) (peak : Peak) : list Feature :=
  records (features_near db peak) peak.

Definition per_peak_messages (db : FeatureDB) (peak : Peak) : list Msg :=
  messages (features_near db peak) peak.

(** The peaks the loop gets through: the ones before the first peak at
    which line 36 raises. *)
Fixpoint reached (db : FeatureDB) (peaks : list Peak) : list Peak :=
  match peaks with
  | [] => []
  | p :: peaks' =>
      match already_annotated (features_near db p) with
      | None => []
      | Some _ => p :: reached db peaks'
      end
  end.

(** As many records as announcing messages. *)
Definition balanced (st : State) : Prop :=
  length (out st) = length (List.filter is_corresponds (stdout st)).

End ScriptViews.

(** ** Readings of [_main]'s set-up *)

Module MainViews.
Import Main.

Section Setup.
Variables LOG_DIR CACHE_DIR : string.
Variable fs : gset string.

(** The files the checks see: the ones there were and the two directories
    [_main] makes when they are missing (lines 102-104 and 117-119). *)
Definition seen : gset string :=
  (mkdir_if_missing "Make .cache directory" CACHE_DIR
     (mkdir_if_missing "Make .log directory" LOG_DIR fs).2).2.

Definition setup_events : list Event :=
  (mkdir_if_missing "Make .log directory" LOG_DIR fs).1 ++
  (mkdir_if_missing "Make .cache directory" CACHE_DIR
     (mkdir_if_missing "Make .log directory" LOG_DIR fs).2).1.

End Setup.

End MainViews.

(** ** [peaks2utr/preprocess.py] *)

Module Preprocess.

(** What the three functions do to the world: log records, the call into
    pysam, the call into gffutils, the MACS2 process and the task that
    copies its output into a log file. *)
Inductive Effect :=
  | Info (msg : string)
  | Error (msg : string)
  | PysamView (argv : list string)
  | GffutilsCreateDb (gff_in gff_db : string) (force : bool)
  | Macs2 (argv : list string)
  | ConsumeLines (log_path : string).

Inductive Exn :=
  | MACS2Error (msg : string)
  | KeyError (key : string).

Section Cache.

(** [utils.cached], [constants.CACHE_DIR], [constants.LOG_DIR] and the
    dictionary [constants.PYSAM_STRAND_ARGS] are not among the sources;
    [splitext_root] is [os.path.splitext(..)[0]], [basename] is
    [os.path.basename], [path_join] is [os.path.join]. *)
Variable cached : string -> string.
Variables CACHE_DIR LOG_DIR : string.
Variable PYSAM_STRAND_ARGS : gmap string (list string).
Variables splitext_root basename : string -> string.
Variable path_join : string -> string -> string.

(** [cached(bam_basename + '.%s.bam' % strand)]. *)
Definition strand_bam (bam_basename strand : string) : string :=
  cached (bam_basename +:+ "." +:+ strand +:+ ".bam").

(** [cached("%s_peaks.broadPeak" % strand)]. *)
Definition strand_peaks (strand : string) : string :=
  cached (strand +:+ "_peaks.broadPeak").

(** [pysam_strand_split(bam_basename, args, strand)] on the files [fs];
    [BAM_IN] is [args.BAM_IN].  The strand's arguments are looked up when
    the call to [pysam.view] is evaluated, after the first log record. *)
Definition pysam_strand_split (fs : gset string)
    (bam_basename BAM_IN strand : string) : list Effect * option Exn :=
  if bool_decide (strand_bam bam_basename strand ∈ fs) then ([], None)
  else
    let splitting :=
      Info ("Splitting " +:+ strand +:+ " strand from " +:+ BAM_IN +:+ ".") in
    match PYSAM_STRAND_ARGS !! strand with
    | None => ([splitting], Some (KeyError strand))
    | Some strand_args =>
        ([ splitting;
           PysamView (["--threads"; "6"; "-b"] ++ strand_args ++
                      ["-o"; strand_bam bam_basename strand; BAM_IN]);
           Info ("Finished splitting " +:+ strand +:+ " strand.") ],
         None)
    end.

(** [create_db(gff_in)]: the effects and the path of the database that is
    opened and returned. *)
Definition create_db (fs : gset string) (gff_in : string)
    : list Effect * string :=
  let gff_db := cached (basename (splitext_root gff_in +:+ ".db")) in
  if bool_decide (gff_db ∈ fs) then ([], gff_db)
  else ([ Info "Creating gff db.";
          GffutilsCreateDb gff_in gff_db true;
          Info "Finished creating gff db." ],
        gff_db).

(** [call_peaks(bam_basename, strand)]; [exit_code] is what the MACS2
    process returns when it is started. *)
Definition call_peaks (fs : gset string) (bam_basename strand : string)
    (exit_code : Z) : list Effect * option Exn :=
  if bool_decide (strand_peaks strand ∈ fs) then
    ([Info ("Using cached " +:+ strand +:+ " strand peaks file.")], None)
  else
    let started :=
      [ Info ("Calling peaks for " +:+ strand +:+ " strand with MACS2.");
        Macs2 [ "macs2"; "callpeak"; "-t"; strand_bam bam_basename strand;
                "-n"; strand; "--nomodel"; "--extsize"; "100"; "--broad";
                "--outdir"; CACHE_DIR ];
        ConsumeLines (path_join LOG_DIR (strand +:+ "_macs2.log")) ] in
    if bool_decide (exit_code = 0) then
      (started ++ [Info ("Finished calling " +:+ strand +:+ " strand peaks.")],
       None)
    else
      (started ++ [Error "MACS2 returned an error."],
       Some (MACS2Error ("Check " +:+ strand +:+ "_macs2.log."))).

End Cache.

End Preprocess.

Module MoreFixtures.

(** A forward peak file with the peak 900..1200 and no reverse peaks. *)
Definition files_forward (fn : string) : list Peak :=
  if bool_decide (fn = Script.forward_broad_peaks)
  then [Fixtures.peak_900_1200] else [].

Definition args_plain : Main.Args :=
  {| Main.GFF_IN := "genes.gff"; Main.BAM_IN := "reads.bam";
     Main.max_distance := 200;
     Main.override_utr := false; Main.extend_utr := false;
     Main.five_prime_ext := 0; Main.skip_soft_clip := false;
     Main.min_pileups := 10; Main.min_poly_tail := 10;
     Main.processors := 1; Main.force := false; Main.output := None;
     Main.keep_cache := false |}.

Definition cached_stub (fn : string) : string := ".cache/" +:+ fn.

Definition strand_args_stub : gmap string (list string) :=
  {[ "forward" := ["-F"; "20"]; "reverse" := ["-f"; "16"] ]}.

Definition path_join_stub (dir fn : string) : string := dir +:+ "/" +:+ fn.

(** Gene G with a [three_prime_UTR] row of length zero behind it, and with
    one of negative length. *)
Definition utr_empty : Feature :=
  Fixtures.row "G_UTR" "three_prime_UTR" 1001 1000 "+"
    {[ "ID" := ["G_UTR"]; "Parent" := ["G"] ]}.
Definition db_empty_utr : list Feature := [Fixtures.gene_G; utr_empty].

Definition utr_negative : Feature :=
  Fixtures.row "G_UTR" "three_prime_UTR" 1005 1000 "+"
    {[ "ID" := ["G_UTR"]; "Parent" := ["G"] ]}.
Definition db_negative_utr : list Feature := [Fixtures.gene_G; utr_negative].

(** A peak over the end of gene A that stops before gene B. *)
Definition peak_450_550 : Peak := Fixtures.broad_peak "forward_peak_6" 450 550.

End MoreFixtures.

(** * Properties of the script *)

Module ScriptFacts.
Import Script.

Lemma gene_body_out peak genes idx gene st :
  out (gene_body peak genes idx gene st) =
  out st ++ match emitted peak genes idx gene with Some r => [r] | None => [] end.
Proof.
  unfold gene_body, emitted.
  destruct (wholly_contained peak gene); simpl; [by rewrite app_nil_r|].
  destruct (overlapping_next peak genes idx gene); simpl; [by rewrite app_nil_r|].
  destruct (extends_past peak gene); simpl; [done | by rewrite app_nil_r].
Qed.

Lemma gene_loop_out peak genes todo : forall idx st,
  out (gene_loop peak genes idx todo st) =
  out st ++ emitted_from peak genes idx todo.
Proof.
  induction todo as [|gene todo IH]; intros idx st; simpl.
  - by rewrite app_nil_r.
  - rewrite IH, gene_body_out.
    destruct (emitted peak genes idx gene); simpl.
    + by rewrite <- app_assoc.
    + by rewrite app_nil_r.
Qed.

Lemma elem_of_emitted_from peak genes r todo : forall idx,
  r ∈ emitted_from peak genes idx todo <->
  exists k gene, todo !! k = Some gene /\
                 emitted peak genes (idx + k) gene = Some r.
Proof.
  induction todo as [|g todo IH]; intros idx; simpl.
  - split; [by intros ?%elem_of_nil | by intros (k & gene & ? & _)].
  - assert (Hrest : r ∈ emitted_from peak genes (S idx) todo <->
              exists k gene, todo !! k = Some gene /\
                emitted peak genes (idx + S k) gene = Some r).
    { rewrite IH. by setoid_rewrite Nat.add_succ_r. }
    split.
    + intros Hin.
      destruct (emitted peak genes idx g) as [r0|] eqn:Hg.
      * apply elem_of_cons in Hin as [->|Hin].
        -- exists 0%nat, g. by rewrite Nat.add_0_r.
        -- apply Hrest in Hin as (k & gene & ? & ?). by exists (S k), gene.
      * apply Hrest in Hin as (k & gene & ? & ?). by exists (S k), gene.
    + intros (k & gene & Hk & Hr).
      destruct k as [|k]; simpl in Hk.
      * injection Hk as ->. rewrite Nat.add_0_r in Hr. rewrite Hr. left.
      * assert (r ∈ emitted_from peak genes (S idx) todo) by (apply Hrest; eauto).
        destruct (emitted peak genes idx g); [by right | done].
Qed.

(** What a peak adds does not depend on what is already in [out]. *)
Lemma annotate_out features peak st :
  out (annotate features peak st) = out st ++ records features peak.
Proof.
  unfold records, annotate.
  destruct features as [|f fs]; [by rewrite app_nil_r|].
  destruct (already_annotated (f :: fs)) as [[|]|];
    [by rewrite app_nil_r| |by rewrite app_nil_r].
  by rewrite !gene_loop_out.
Qed.

(** Without a [three_prime_UTR] row the test of line 36 is false. *)
Lemma has_utr_false features :
  has_utr features = false -> already_annotated features = Some false.
Proof.
  unfold has_utr, already_annotated.
  induction features as [|f fs IH]; simpl; [done|].
  destruct (is_featuretype "three_prime_UTR" f); simpl; [done | exact IH].
Qed.

(** Rows of length zero are passed over by [any]. *)
Lemma any_skips_empty before rest :
  Forall (fun f => feature_len f = 0) before ->
  any_ (before ++ rest) = any_ rest.
Proof.
  induction 1 as [|f before Hf _ IH]; simpl; [done|].
  unfold truth_value. rewrite Hf. simpl. exact IH.
Qed.

Lemma any_defined fs :
  Forall (fun f => 0 <= feature_len f) fs -> any_ fs <> None.
Proof.
  induction 1 as [|f fs Hf _ IH]; simpl; [done|].
  unfold truth_value. destruct (Z.ltb_spec (feature_len f) 0); [lia|].
  by destruct (negb _).
Qed.

Lemma any_negative u rest : feature_len u < 0 -> any_ (u :: rest) = None.
Proof.
  intros Hu. simpl. unfold truth_value.
  by destruct (Z.ltb_spec (feature_len u) 0); [|lia].
Qed.

Lemma any_positive u rest : feature_len u > 0 -> any_ (u :: rest) = Some true.
Proof.
  intros Hu. simpl. unfold truth_value.
  destruct (Z.ltb_spec (feature_len u) 0); [lia|].
  destruct (Z.eqb_spec (feature_len u) 0); [lia | done].
Qed.

Lemma records_spec features peak :
  records features peak =
  match already_annotated features with
  | Some false => emitted_from peak (genes_of features) 0 (genes_of features)
  | _ => []
  end.
Proof.
  unfold records, annotate, genes_of.
  destruct features as [|f fs]; [done|].
  destruct (already_annotated (f :: fs)) as [[|]|]; [done| |done].
  by rewrite gene_loop_out.
Qed.

Lemma elem_of_records features peak r :
  r ∈ records features peak <->
  already_annotated features = Some false /\
  exists idx gene, genes_of features !! idx = Some gene /\
                   emitted peak (genes_of features) idx gene = Some r.
Proof.
  rewrite records_spec.
  destruct (already_annotated features) as [[|]|].
  - split; [by intros ?%elem_of_nil | by intros [? _]].
  - rewrite elem_of_emitted_from. simpl. tauto.
  - split; [by intros ?%elem_of_nil | by intros [? _]].
Qed.

Lemma emitted_Some peak genes idx gene r :
  emitted peak genes idx gene = Some r -> r = utr_feature gene peak.
Proof.
  unfold emitted. repeat case_match; congruence.
Qed.

Lemma utr_feature_record_of gene peak : record_of gene (utr_feature gene peak).
Proof.
  unfold record_of, utr_feature, utr_attrs; simpl.
  rewrite lookup_insert_ne by done. by rewrite lookup_insert_eq.
Qed.

Lemma record_of_inj g1 g2 r : record_of g1 r -> record_of g2 r -> id g1 = id g2.
Proof. unfold record_of. congruence. Qed.

(** A record of [gene] in what the peak adds, when the step for [gene]
    itself adds none, was emitted for another row with the same id. *)
Lemma skipped_gene_records features peak idx gene :
  genes_of features !! idx = Some gene ->
  emitted peak (genes_of features) idx gene = None ->
  forall r, r ∈ records features peak -> record_of gene r ->
    exists k other, k <> idx /\ genes_of features !! k = Some other /\
                    id other = id gene.
Proof.
  intros Hidx Hnone r Hin Hrec.
  apply elem_of_records in Hin as (_ & k & other & Hk & Hr).
  exists k, other. split_and!; [|done|].
  - intros ->. congruence.
  - apply emitted_Some in Hr as ->.
    eapply record_of_inj; [apply utr_feature_record_of | done].
Qed.

Lemma skipped_gene_no_record features peak idx gene :
  genes_of features !! idx = Some gene ->
  emitted peak (genes_of features) idx gene = None ->
  unique_ids (genes_of features) ->
  forall r, r ∈ records features peak -> ~ record_of gene r.
Proof.
  intros Hidx Hnone Huniq r Hin Hrec.
  destruct (skipped_gene_records _ _ _ _ Hidx Hnone r Hin Hrec)
    as (k & other & Hne & Hk & Hid).
  apply Hne. eapply NoDup_lookup; [exact Huniq| |].
  - rewrite list_lookup_fmap, Hk. simpl. by rewrite Hid.
  - by rewrite list_lookup_fmap, Hidx.
Qed.

(** The database query keeps the strand it is asked for. *)
Lemma features_near_strand db peak f :
  f ∈ features_near db peak -> strand f = "+" /\ seqid f = chr peak.
Proof.
  unfold features_near, region. rewrite list_elem_of_In, filter_In.
  intros [_ H]. unfold in_region in H.
  rewrite !andb_true_iff, !bool_decide_eq_true in H. tauto.
Qed.

Lemma genes_of_elem features g :
  g ∈ genes_of features <-> g ∈ features /\ featuretype g = "gene".
Proof.
  unfold genes_of. rewrite !list_elem_of_In, filter_In.
  unfold is_featuretype. by rewrite bool_decide_eq_true.
Qed.

End ScriptFacts.

(** * The claims about the decision procedure *)

Section DecisionClaims.
Import Script ScriptFacts Fixtures.

(** C1, as amended.  When the peak reaches over the end of the gene at
    [idx] and the start of the gene at [idx + 1], the step for the gene at
    [idx] emits nothing: a record in the output that names this gene as its
    parent comes from another row with the same id, so with unique ids
    there is none.  The gene at [idx + 1] is judged by its own step. *)
Theorem C1_spanning_peak_skips_current_gene
    (features : list Feature) (peak : Peak) (idx : nat) (gene next : Feature) :
  genes_of features !! idx = Some gene ->
  genes_of features !! (idx + 1)%nat = Some next ->
  pstart peak < end_ gene ->
  pend peak > start next ->
  emitted peak (genes_of features) idx gene = None /\
  (forall r, r ∈ records features peak -> record_of gene r ->
     exists k other, k <> idx /\ genes_of features !! k = Some other /\
                     id other = id gene) /\
  (unique_ids (genes_of features) ->
     forall r, r ∈ records features peak -> ~ record_of gene r).
Proof.
  intros Hidx Hnext Hs He.
  assert (Hnone : emitted peak (genes_of features) idx gene = None).
  { unfold emitted, overlapping_next. rewrite Hnext.
    destruct (wholly_contained peak gene); [done|].
    assert ((pstart peak <? end_ gene) && (pend peak >? start next) = true) as ->
      by (apply andb_true_iff; split; lia).
    done. }
  split_and!; [done| |].
  - by apply skipped_gene_records.
  - intros Huniq. by apply (skipped_gene_no_record features peak idx).
Qed.

Lemma C1_spanning_peak_skips_current_gene_witness :
  emitted peak_over_gap (genes_of (features_near db_neighbours peak_over_gap))
    0 gene_A = None /\
  forall r, r ∈ records (features_near db_neighbours peak_over_gap) peak_over_gap ->
    ~ record_of gene_A r.
Proof.
  destruct (C1_spanning_peak_skips_current_gene
              (features_near db_neighbours peak_over_gap) peak_over_gap
              0 gene_A gene_B) as (H1 & _ & H3).
  - reflexivity.
  - reflexivity.
  - vm_compute. reflexivity.
  - vm_compute. reflexivity.
  - split; [exact H1|]. apply H3.
    apply (bool_decide_unpack _). vm_compute. reflexivity.
Defined.

(** C1 as stated fails: the peak 400..900 reaches over the end of gene A
    (500) and the start of gene B (600), and the output still holds a
    record for B, from B's end to the peak's end. *)
Lemma C1_next_gene_still_annotated :
  ~ (forall (features : list Feature) (peak : Peak) (idx : nat)
            (gene next : Feature),
       genes_of features !! idx = Some gene ->
       genes_of features !! (idx + 1)%nat = Some next ->
       pstart peak < end_ gene ->
       pend peak > start next ->
       forall r, r ∈ records features peak ->
         ~ record_of gene r /\ ~ record_of next r).
Proof.
  intros H.
  specialize (H (features_near db_neighbours peak_over_gap) peak_over_gap
                0%nat gene_A gene_B eq_refl eq_refl).
  destruct (H ltac:(vm_compute; reflexivity) ltac:(vm_compute; reflexivity)
              (utr_feature gene_B peak_over_gap)) as [_ Hnot].
  - vm_compute. left.
  - apply Hnot. apply utr_feature_record_of.
Qed.

(** C2, as amended.  When the [three_prime_UTR] rows near the peak hold
    one of positive length, with only rows of length zero before it, the
    whole peak is skipped: the only effect is the already-annotated
    message, no gene near the peak is evaluated and no record is added. *)
Theorem C2_annotated_window_skips_peak
    (features : list Feature) (peak : Peak) (st : State)
    (before after : list Feature) (u : Feature) :
  List.filter (is_featuretype "three_prime_UTR") features
    = before ++ u :: after ->
  Forall (fun f => end_ f - start f + 1 = 0) before ->
  end_ u - start u + 1 > 0 ->
  annotate features peak st = print (AlreadyAnnotated (name peak)) st /\
  out (annotate features peak st) = out st /\
  records features peak = [].
Proof.
  intros Hrows Hbefore Hu.
  assert (Hany : already_annotated features = Some true).
  { unfold already_annotated. rewrite Hrows.
    rewrite any_skips_empty by exact Hbefore. by apply any_positive. }
  assert (Hann : forall st0,
    annotate features peak st0 = print (AlreadyAnnotated (name peak)) st0).
  { intros st0. unfold annotate. destruct features as [|f fs].
    - by destruct before.
    - by rewrite Hany. }
  split_and!.
  - apply Hann.
  - by rewrite Hann.
  - unfold records. by rewrite Hann.
Qed.

Lemma C2_annotated_window_skips_peak_witness :
  records (features_near db_annotated peak_past_D) peak_past_D = [] /\
  messages (features_near db_annotated peak_past_D) peak_past_D =
    [AlreadyAnnotated "forward_peak_2"].
Proof.
  destruct (C2_annotated_window_skips_peak
              (features_near db_annotated peak_past_D) peak_past_D initial
              [] [] utr_C)
    as (H1 & _ & H3).
  - reflexivity.
  - constructor.
  - vm_compute. reflexivity.
  - split; [exact H3|]. unfold messages. rewrite H1. reflexivity.
Defined.

(** C2 as stated fails: gene C already has its UTR, gene D has none and
    its own step would give it the record 1400..1500, yet nothing is
    emitted for D. *)
Lemma C2_other_genes_not_evaluated :
  ~ (forall (features : list Feature) (peak : Peak) (idx : nat)
            (gene : Feature) (r : Feature),
       has_utr features = true ->
       genes_of features !! idx = Some gene ->
       (forall u, u ∈ features -> featuretype u = "three_prime_UTR" ->
          ~ record_of gene u) ->
       emitted peak (genes_of features) idx gene = Some r ->
       r ∈ records features peak).
Proof.
  intros H.
  specialize (H (features_near db_annotated peak_past_D) peak_past_D
                1%nat gene_D (utr_feature gene_D peak_past_D)
                eq_refl eq_refl).
  assert (Hin : utr_feature gene_D peak_past_D
                ∈ records (features_near db_annotated peak_past_D) peak_past_D).
  { apply H.
    - intros u Hu Htype. vm_compute in Hu.
      unfold record_of.
      apply elem_of_cons in Hu as [->|Hu]; [by vm_compute in Htype|].
      apply elem_of_cons in Hu as [->|Hu]; [by vm_compute|].
      apply elem_of_cons in Hu as [->|Hu]; [by vm_compute in Htype|].
      by apply elem_of_nil in Hu.
    - vm_compute. reflexivity. }
  vm_compute in Hin. by apply elem_of_nil in Hin.
Qed.

(** The script opens one peak file. *)
Lemma script_reads_forward_file_only db files1 files2 :
  files1 forward_broad_peaks = files2 forward_broad_peaks ->
  script db files1 = script db files2.
Proof. unfold script. by intros ->. Qed.

(** C3, at a reverse-strand input.  Gene R lies on the reverse strand at
    1000..2000 and the reverse peak file holds a peak at 800..1100, past
    the start of R: the script opens the forward file only and leaves
    [out] and standard output empty; the loop body itself asks the
    database for the forward strand and finds nothing near that peak. *)
Theorem C3_reverse_peak_gets_no_record :
  script db_reverse files_reverse = initial /\
  features_near db_reverse reverse_peak = [] /\
  annotate (features_near db_reverse reverse_peak) reverse_peak initial =
    print (NoFeaturesFound "reverse_peak_1") initial.
Proof. split_and!; reflexivity. Qed.

(** C4.  For a gene near a forward peak that ends past the gene's end, and
    that does not reach over the gene's end and the next gene's start, the
    step for the gene gives the feature from the gene's end to the peak's
    end, on the forward strand, and that feature is in the output unless
    the peak was skipped as already annotated.  (A peak that ends past the
    gene's end is never wholly contained in it.) *)
Theorem C4_forward_extension_range
    (db : list Feature) (peak : Peak) (idx : nat) (gene : Feature) :
  genes_of (features_near db peak) !! idx = Some gene ->
  (forall next, genes_of (features_near db peak) !! (idx + 1)%nat = Some next ->
     ~ (pstart peak < end_ gene /\ pend peak > start next)) ->
  pend peak > end_ gene ->
  strand gene = "+" /\
  emitted peak (genes_of (features_near db peak)) idx gene =
    Some (utr_feature gene peak) /\
  start (utr_feature gene peak) = end_ gene /\
  end_ (utr_feature gene peak) = pend peak /\
  (has_utr (features_near db peak) = false ->
     utr_feature gene peak ∈ records (features_near db peak) peak).
Proof.
  intros Hidx Hnext Hpast.
  assert (Hem : emitted peak (genes_of (features_near db peak)) idx gene =
                Some (utr_feature gene peak)).
  { unfold emitted, wholly_contained, overlapping_next, extends_past.
    assert ((end_ gene >? pend peak) = false) as -> by lia.
    rewrite andb_false_r.
    assert ((pend peak >? end_ gene) = true) as -> by lia.
    destruct (genes_of (features_near db peak) !! (idx + 1)%nat) as [next|];
      [|done].
    specialize (Hnext next eq_refl).
    assert ((pstart peak <? end_ gene) && (pend peak >? start next) = false) as ->
      by (apply andb_false_iff; lia).
    done. }
  split_and!; try done.
  - apply list_elem_of_lookup_2, genes_of_elem in Hidx as [Hin _].
    by apply features_near_strand in Hin as [? _].
  - intros Hutr%has_utr_false. apply elem_of_records. eauto.
Qed.

(** The example of the specification: a gene ending at 1000 and the peak
    900..1200 give the range 1000..1200. *)
Lemma C4_forward_extension_range_witness :
  exists r, records (features_near db_single peak_900_1200) peak_900_1200 = [r] /\
            start r = 1000 /\ end_ r = 1200.
Proof.
  destruct (C4_forward_extension_range db_single peak_900_1200 0 gene_G)
    as (_ & _ & Hs & He & _).
  - reflexivity.
  - intros next Hnext. vm_compute in Hnext. discriminate.
  - vm_compute. reflexivity.
  - exists (utr_feature gene_G peak_900_1200).
    split; [reflexivity|]. split; [exact Hs | exact He].
Defined.

(** C5.  A peak that lies strictly inside a gene gets no record from that
    gene's step: a record in the output that names this gene as its parent
    comes from another row with the same id, so with unique ids there is
    none. *)
Theorem C5_contained_peak_gives_no_record
    (features : list Feature) (peak : Peak) (idx : nat) (gene : Feature) :
  genes_of features !! idx = Some gene ->
  start gene < pstart peak ->
  pend peak < end_ gene ->
  emitted peak (genes_of features) idx gene = None /\
  (forall r, r ∈ records features peak -> record_of gene r ->
     exists k other, k <> idx /\ genes_of features !! k = Some other /\
                     id other = id gene) /\
  (unique_ids (genes_of features) ->
     forall r, r ∈ records features peak -> ~ record_of gene r).
Proof.
  intros Hidx Hs He.
  assert (Hnone : emitted peak (genes_of features) idx gene = None).
  { unfold emitted, wholly_contained.
    assert ((start gene <? pstart peak) && (end_ gene >? pend peak) = true) as ->
      by (apply andb_true_iff; split; lia).
    done. }
  split_and!; [done| |].
  - by apply skipped_gene_records.
  - intros Huniq. by apply (skipped_gene_no_record features peak idx).
Qed.

Lemma C5_contained_peak_gives_no_record_witness :
  records (features_near db_single peak_inside) peak_inside = [] /\
  emitted peak_inside (genes_of (features_near db_single peak_inside))
    0 gene_G = None.
Proof.
  destruct (C5_contained_peak_gives_no_record
              (features_near db_single peak_inside) peak_inside 0 gene_G)
    as (H1 & _ & _).
  - reflexivity.
  - vm_compute. reflexivity.
  - vm_compute. reflexivity.
  - split; [reflexivity | exact H1].
Defined.

(** C10, as amended.  Every record the peak adds comes from a gene near the
    peak: its type is [three_prime_UTR], its [ID] is the gene's id followed
    by [_UTR], its [Parent] is the gene's id, its [colour] is 3, its strand
    and sequence are the gene's, and every other attribute is the gene's. *)
Theorem C10_emitted_record_well_formed
    (features : list Feature) (peak : Peak) (r : Feature) :
  r ∈ records features peak ->
  exists idx gene,
    genes_of features !! idx = Some gene /\
    featuretype r = "three_prime_UTR" /\
    attributes r !! "ID" = Some [id gene +:+ "_UTR"] /\
    attributes r !! "Parent" = Some [id gene] /\
    attributes r !! "colour" = Some ["3"] /\
    strand r = strand gene /\
    seqid r = chrom gene /\
    (forall k, k <> "ID" -> k <> "Parent" -> k <> "colour" ->
       attributes r !! k = attributes gene !! k).
Proof.
  intros (_ & idx & gene & Hidx & Hem)%elem_of_records.
  apply emitted_Some in Hem as ->.
  exists idx, gene. unfold utr_feature, utr_attrs; simpl.
  split_and!; try done.
  - rewrite !lookup_insert_ne by done. by rewrite lookup_insert_eq.
  - rewrite lookup_insert_ne by done. by rewrite lookup_insert_eq.
  - by rewrite lookup_insert_eq.
  - intros k ? ? ?. by rewrite !lookup_insert_ne by done.
Qed.

Lemma C10_emitted_record_well_formed_witness :
  exists gene,
    gene ∈ db_single /\
    attributes (utr_feature gene_G peak_900_1200) !! "Parent" = Some [id gene] /\
    attributes (utr_feature gene_G peak_900_1200) !! "ID" =
      Some [id gene +:+ "_UTR"].
Proof.
  destruct (C10_emitted_record_well_formed
              (features_near db_single peak_900_1200) peak_900_1200
              (utr_feature gene_G peak_900_1200))
    as (idx & gene & Hidx & _ & HID & HP & _).
  - vm_compute. left.
  - exists gene. split; [|split; [exact HP | exact HID]].
    apply list_elem_of_lookup_2 in Hidx. exact Hidx.
Defined.

(** C10 as stated fails: gene H carries [colour] 5, and the record emitted
    for it carries [colour] 3. *)
Lemma C10_colour_is_overwritten :
  ~ (forall (features : list Feature) (peak : Peak) (r : Feature),
       r ∈ records features peak ->
       exists idx gene,
         genes_of features !! idx = Some gene /\
         featuretype r = "three_prime_UTR" /\
         attributes r !! "ID" = Some [id gene +:+ "_UTR"] /\
         attributes r !! "Parent" = Some [id gene] /\
         strand r = strand gene /\
         seqid r = chrom gene /\
         (forall k, k <> "ID" -> k <> "Parent" ->
            attributes r !! k = attributes gene !! k)).
Proof.
  intros H.
  destruct (H (features_near db_coloured peak_900_1200) peak_900_1200
              (utr_feature gene_H peak_900_1200))
    as (idx & gene & Hidx & _ & _ & _ & _ & _ & Hattrs).
  - vm_compute. left.
  - assert (gene = gene_H) as ->.
    { destruct idx as [|idx]; [by injection Hidx | by destruct idx]. }
    specialize (Hattrs "colour" ltac:(done) ltac:(done)).
    vm_compute in Hattrs. discriminate.
Qed.

End DecisionClaims.

(** * Properties of [_main] and of the batches *)

Module MainFacts.
Import Main.

Lemma mkdir_if_missing_no_work what dir fs :
  Forall (fun e => is_work e = false) (mkdir_if_missing what dir fs).1.
Proof.
  unfold mkdir_if_missing. case_bool_decide; simpl; repeat constructor.
Qed.

Lemma clear_cache_no_work CACHE_DIR args :
  Forall (fun e => is_work e = false) (clear_cache CACHE_DIR args).
Proof. unfold clear_cache. destruct (keep_cache args); repeat constructor. Qed.

Lemma perform_checks_both_flags gff_basename_of fs args :
  override_utr args = true -> extend_utr args = true ->
  exists msg, perform_checks gff_basename_of fs args = ([LogError msg], Some 1).
Proof.
  intros Ho He. unfold perform_checks. rewrite Ho, He. simpl.
  destruct (_ && _); eauto.
Qed.

End MainFacts.

Section MainClaims.
Import Main MainFacts MainFixtures.

(** C7.  With both [override_utr] and [extend_utr] set, [_main] logs an
    error and leaves through [sys.exit(1)]: the status is not zero and none
    of the stages from pre-processing on has run (what runs is the set-up
    of the log and cache directories and the clean-up of the cache). *)
Theorem C7_both_flags_rejected
    (LOG_DIR CACHE_DIR : string) (gff_basename_of : string -> string)
    (fs : gset string) (args : Args) :
  override_utr args = true ->
  extend_utr args = true ->
  let run := _main LOG_DIR CACHE_DIR gff_basename_of fs args in
  run.2 = SystemExit 1 /\
  Forall (fun e => is_work e = false) run.1 /\
  exists msg, LogError msg ∈ run.1.
Proof.
  intros Ho He. unfold _main.
  pose proof (mkdir_if_missing_no_work "Make .log directory" LOG_DIR fs) as Hlog.
  destruct (mkdir_if_missing "Make .log directory" LOG_DIR fs) as [ev_log fs1].
  pose proof (mkdir_if_missing_no_work "Make .cache directory" CACHE_DIR fs1)
    as Hcache.
  destruct (mkdir_if_missing "Make .cache directory" CACHE_DIR fs1)
    as [ev_cache fs2].
  destruct (perform_checks_both_flags gff_basename_of fs2 args Ho He)
    as [msg ->].
  simpl in *. split_and!; [done | |].
  - rewrite !Forall_app, Forall_cons. split_and!; try done.
    apply clear_cache_no_work.
  - exists msg. rewrite !elem_of_app. right; right. left.
Qed.

Lemma C7_both_flags_rejected_witness :
  (_main ".log" ".cache" basename_stub ∅ args_both_flags).2
    = SystemExit 1 /\
  Forall (fun e => is_work e = false)
    (_main ".log" ".cache" basename_stub ∅ args_both_flags).1.
Proof.
  destruct (C7_both_flags_rejected ".log" ".cache" basename_stub ∅
              args_both_flags) as (H1 & H3 & _).
  - reflexivity.
  - reflexivity.
  - split; [exact H1 | exact H3].
Defined.

End MainClaims.

Module BatchFacts.
Import Main.

Section Chunks.
Context {A : Type}.
Implicit Types (l b : list A) (n fuel i : nat).

Lemma iter_batches_fuel_concat n : (0 < n)%nat -> forall fuel l,
  (length l <= fuel)%nat -> concat (iter_batches_fuel fuel l n) = l.
Proof.
  intros Hn. induction fuel as [|fuel IH]; intros l Hlen; simpl.
  - destruct l; [done | simpl in Hlen; lia].
  - destruct l as [|x l]; [done|].
    rewrite concat_cons, IH, take_drop; [done|].
    rewrite length_drop. simpl in *. lia.
Qed.

(** The batch at index [i] is the slice of [n] elements from [i * n]. *)
Lemma iter_batches_fuel_lookup n : (0 < n)%nat -> forall fuel l i b,
  iter_batches_fuel fuel l n !! i = Some b ->
  b = take n (drop (i * n) l) /\ b <> [].
Proof.
  intros Hn. induction fuel as [|fuel IH]; intros l i b; simpl; [done|].
  destruct l as [|x l]; [done|].
  destruct i as [|i]; simpl.
  - intros [= <-]. split; [done|]. destruct n; [lia | done].
  - intros Hi. apply IH in Hi as [-> Hne]. split; [|done].
    by rewrite drop_drop.
Qed.

Lemma slice_elem l n i x :
  x ∈ take n (drop (i * n) l) ->
  exists k, (k < n)%nat /\ l !! (i * n + k)%nat = Some x.
Proof.
  intros (k & Hk)%list_elem_of_lookup_1.
  apply lookup_take_Some in Hk as [Hk Hlt].
  rewrite lookup_drop in Hk. eauto.
Qed.

Lemma slices_disjoint l n i j x :
  NoDup l -> i <> j ->
  x ∈ take n (drop (i * n) l) -> x ∉ take n (drop (j * n) l).
Proof.
  intros Hnd Hij (k1 & Hk1 & H1)%slice_elem (k2 & Hk2 & H2)%slice_elem.
  pose proof (NoDup_lookup _ _ _ _ Hnd H1 H2). nia.
Qed.

Lemma slice_sublist l n m : take n (drop m l) `sublist_of` l.
Proof. etrans; [apply sublist_take | apply sublist_drop]. Qed.

End Chunks.

Lemma ceil_div_bounds a b c :
  0 < b -> ceil_div a b = Some c -> a <= c * b < a + b.
Proof.
  unfold ceil_div. intros Hb.
  destruct (b =? 0) eqn:E; [lia|]. intros [= <-].
  pose proof (Z.div_mod (- a) b ltac:(lia)).
  pose proof (Z.mod_pos_bound (- a) b Hb). nia.
Qed.

End BatchFacts.

Section BatchClaims.
Import Main BatchFacts.

(** C8.  For a positive processor count, the peaks are cut into batches of
    [ceil(total / processors)] peaks: the batches put one after the other
    are the collection itself, batch [i] is the run of at most that many
    consecutive peaks that starts at position [i * size] (so it keeps the
    order of the collection and no position falls into two batches), no
    batch is empty, there are at most as many batches as processors, and
    when the peaks are pairwise different no peak is in two batches. *)
Theorem C8_batches_partition (P : list Peak) (n : Z) :
  0 < n ->
  exists (bs : list (list Peak)) (size : nat),
    batches P n = Some bs /\
    ceil_div (Z.of_nat (length P)) n = Some (Z.of_nat size) /\
    concat bs = P /\
    Z.of_nat (length bs) <= n /\
    (forall i b, bs !! i = Some b ->
       b = take size (drop (i * size) P) /\ b <> [] /\ b `sublist_of` P) /\
    (NoDup P ->
       forall i j a b x, i <> j -> bs !! i = Some a -> bs !! j = Some b ->
         x ∈ a -> x ∉ b).
Proof.
  intros Hn. unfold batches.
  destruct (ceil_div (Z.of_nat (length P)) n) as [c|] eqn:Hc;
    [|unfold ceil_div in Hc; destruct (n =? 0) eqn:E; [lia | done]].
  pose proof (ceil_div_bounds _ _ _ Hn Hc) as Hb.
  assert (0 <= c) by nia.
  exists (iter_batches P c), (Z.to_nat c).
  rewrite Z2Nat.id by done. split; [done|]. split; [done|].
  unfold iter_batches. destruct (c <=? 0) eqn:Hle.
  - (* no peaks at all *)
    assert (c = 0) as -> by lia.
    assert (length P = 0%nat) as HP by lia.
    apply nil_length_inv in HP as ->.
    split_and!; [done | simpl; lia | done | done].
  - assert (0 < Z.to_nat c)%nat as Hsize by lia.
    assert (Hlook : forall i b,
      iter_batches_fuel (length P) P (Z.to_nat c) !! i = Some b ->
      b = take (Z.to_nat c) (drop (i * Z.to_nat c) P) /\ b <> []).
    { intros i b. by apply iter_batches_fuel_lookup. }
    split_and!.
    + by apply iter_batches_fuel_concat.
    + (* the last batch is not empty, so it starts inside the collection *)
      destruct (length (iter_batches_fuel (length P) P (Z.to_nat c)))
        as [|k] eqn:Hk; [lia|].
      destruct (lookup_lt_is_Some_2
        (iter_batches_fuel (length P) P (Z.to_nat c)) k ltac:(lia)) as [b Hb'].
      apply Hlook in Hb' as [-> Hne].
      assert (k * Z.to_nat c < length P)%nat.
      { destruct (decide (k * Z.to_nat c < length P)%nat); [done|].
        exfalso. apply Hne. rewrite drop_ge by lia. by rewrite take_nil. }
      nia.
    + intros i b Hi. apply Hlook in Hi as [-> Hne].
      split_and!; [done | done | apply slice_sublist].
    + intros Hnd i j a b x Hij Ha Hb'.
      apply Hlook in Ha as [-> _]. apply Hlook in Hb' as [-> _].
      by apply slices_disjoint.
Qed.

(** Five peaks on two processors: a batch of three and a batch of two. *)
Lemma C8_batches_partition_witness :
  exists bs, batches MainFixtures.five_peaks 2 = Some bs /\
             concat bs = MainFixtures.five_peaks /\
             length <$> bs = [3; 2]%nat.
Proof.
  destruct (C8_batches_partition MainFixtures.five_peaks 2)
    as (bs & size & Hbs & _ & Hconcat & _).
  - lia.
  - exists bs. split; [exact Hbs|]. split; [exact Hconcat|].
    vm_compute in Hbs. injection Hbs as <-. reflexivity.
Defined.

End BatchClaims.

(** * Properties of the aggregation loop *)

Module AggregateFacts.
Import Main.

(** A left fold gives related results on two orders of the same elements
    when its step respects the relation and any two elements of the list
    can be exchanged up to it. *)
Section FoldOrder.
Context {A B : Type} (R : relation B) `{!Equivalence R}.
Context (f : B -> A -> B).
Hypothesis f_proper : forall x b b', R b b' -> R (f b x) (f b' x).



End FoldOrder.

(** ** One gene at a time *)






(** ** The tie-break *)


















(** ** Arrival orders *)



End AggregateFacts.

Section AggregateClaims.
Import Script Main AggregateFacts Fixtures MainFixtures.









End AggregateClaims.

(** * Further properties of the script *)

Module ScriptMore.
Import Script ScriptViews ScriptFacts.

Lemma elem_of_concat {A} (x : A) (ls : list (list A)) :
  x ∈ concat ls <-> exists l, l ∈ ls /\ x ∈ l.
Proof.
  rewrite list_elem_of_In, in_concat.
  split; intros (l & H1 & H2); exists l; by rewrite ?list_elem_of_In in *.
Qed.

(** The exception flag: the gene loop leaves it, line 36 sets it. *)
Lemma gene_body_raised peak genes idx gene st :
  raised (gene_body peak genes idx gene st) = raised st.
Proof. unfold gene_body. by repeat case_match. Qed.

Lemma gene_loop_raised peak genes todo : forall idx st,
  raised (gene_loop peak genes idx todo st) = raised st.
Proof.
  induction todo as [|gene todo IH]; intros idx st; simpl; [done|].
  by rewrite IH, gene_body_raised.
Qed.

Lemma annotate_raised features peak st :
  raised (annotate features peak st) =
  match already_annotated features with
  | None => Some ValueError
  | Some _ => raised st
  end.
Proof.
  unfold annotate. destruct features as [|f fs]; [done|].
  destruct (already_annotated (f :: fs)) as [[|]|]; [done| |done].
  apply gene_loop_raised.
Qed.

Lemma peak_loop_stopped db peaks st :
  raised st <> None -> peak_loop db peaks st = st.
Proof.
  intros Hst. unfold peak_loop.
  induction peaks as [|p peaks IH]; simpl; [done|].
  unfold peak_body at 2. by destruct (raised st).
Qed.

(** The peak at which line 36 raises adds nothing. *)
Lemma raising_peak_silent features peak st :
  already_annotated features = None ->
  annotate features peak st = raise ValueError st.
Proof.
  intros Hnone. unfold annotate. destruct features as [|f fs]; [done|].
  by rewrite Hnone.
Qed.

Lemma peak_loop_out db peaks : forall st,
  raised st = None ->
  out (peak_loop db peaks st) =
  out st ++ concat (per_peak_records db <$> reached db peaks).
Proof.
  induction peaks as [|p peaks IH]; intros st Hst; simpl.
  - by rewrite app_nil_r.
  - unfold peak_loop in *. simpl. unfold peak_body at 2. rewrite Hst.
    destruct (already_annotated (features_near db p)) as [b|] eqn:Hany.
    + rewrite IH by (by rewrite annotate_raised, Hany).
      rewrite annotate_out. simpl. unfold per_peak_records at 2.
      by rewrite <- app_assoc.
    + rewrite raising_peak_silent by done.
      fold (peak_loop db peaks (raise ValueError st)).
      rewrite peak_loop_stopped by done. simpl. by rewrite app_nil_r.
Qed.

Lemma peak_loop_raised db peaks : forall st,
  raised st = None ->
  (raised (peak_loop db peaks st) = None <-> reached db peaks = peaks).
Proof.
  induction peaks as [|p peaks IH]; intros st Hst; simpl; [done|].
  unfold peak_loop in *. simpl. unfold peak_body at 2. rewrite Hst.
  destruct (already_annotated (features_near db p)) as [b|] eqn:Hany.
  - rewrite IH by (by rewrite annotate_raised, Hany).
    split; [by intros -> | by intros [= ->]].
  - rewrite raising_peak_silent by done.
    fold (peak_loop db peaks (raise ValueError st)).
    rewrite peak_loop_stopped by done. simpl. split; done.
Qed.

Lemma reached_prefix db peaks : reached db peaks `prefix_of` peaks.
Proof.
  induction peaks as [|p peaks IH]; simpl; [done|].
  destruct (already_annotated (features_near db p)).
  - by apply prefix_cons.
  - apply prefix_nil.
Qed.

Lemma reached_all db peaks :
  (forall p, p ∈ peaks -> already_annotated (features_near db p) <> None) ->
  reached db peaks = peaks.
Proof.
  induction peaks as [|p peaks IH]; intros Hno; simpl; [done|].
  destruct (already_annotated (features_near db p)) eqn:Hany.
  - rewrite IH; [done|]. intros q Hq. apply Hno. by right.
  - destruct (Hno p ltac:(left) Hany).
Qed.

(** The messages of a peak do not depend on what was printed before. *)
Lemma gene_body_stdout peak genes idx gene st :
  stdout (gene_body peak genes idx gene st) =
  stdout st ++ stdout (gene_body peak genes idx gene initial).
Proof.
  unfold gene_body.
  destruct (wholly_contained peak gene); [done|].
  destruct (overlapping_next peak genes idx gene); [done|].
  destruct (extends_past peak gene); simpl.
  - by rewrite <- app_assoc.
  - by rewrite app_nil_r.
Qed.

Lemma gene_loop_stdout peak genes todo : forall idx st,
  stdout (gene_loop peak genes idx todo st) =
  stdout st ++ stdout (gene_loop peak genes idx todo initial).
Proof.
  induction todo as [|gene todo IH]; intros idx st; simpl.
  - by rewrite app_nil_r.
  - rewrite IH, gene_body_stdout.
    rewrite (IH _ (gene_body peak genes idx gene initial)).
    by rewrite <- app_assoc.
Qed.

Lemma annotate_stdout features peak st :
  stdout (annotate features peak st) = stdout st ++ messages features peak.
Proof.
  unfold messages, annotate.
  destruct features as [|f fs]; [done|].
  destruct (already_annotated (f :: fs)) as [[|]|];
    [done| |by simpl; rewrite app_nil_r].
  apply gene_loop_stdout.
Qed.

Lemma peak_loop_stdout db peaks : forall st,
  raised st = None ->
  stdout (peak_loop db peaks st) =
  stdout st ++ concat (per_peak_messages db <$> reached db peaks).
Proof.
  induction peaks as [|p peaks IH]; intros st Hst; simpl.
  - by rewrite app_nil_r.
  - unfold peak_loop in *. simpl. unfold peak_body at 2. rewrite Hst.
    destruct (already_annotated (features_near db p)) as [b|] eqn:Hany.
    + rewrite IH by (by rewrite annotate_raised, Hany).
      rewrite annotate_stdout. simpl. unfold per_peak_messages at 2.
      by rewrite <- app_assoc.
    + rewrite raising_peak_silent by done.
      fold (peak_loop db peaks (raise ValueError st)).
      rewrite peak_loop_stopped by done. simpl. by rewrite app_nil_r.
Qed.

Lemma filter_snoc {A} (f : A -> bool) l x :
  List.filter f (l ++ [x]) = List.filter f l ++ (if f x then [x] else []).
Proof. rewrite List.filter_app. simpl. by destruct (f x). Qed.

Lemma gene_body_balanced peak genes idx gene st :
  balanced st -> balanced (gene_body peak genes idx gene st).
Proof.
  unfold balanced, gene_body. intros Hb.
  destruct (wholly_contained peak gene); simpl.
  { rewrite filter_snoc. simpl. by rewrite app_nil_r. }
  destruct (overlapping_next peak genes idx gene); simpl.
  { rewrite filter_snoc. simpl. by rewrite app_nil_r. }
  destruct (extends_past peak gene); simpl; [|done].
  rewrite !filter_snoc. simpl. rewrite app_nil_r, !length_app. simpl. lia.
Qed.

Lemma gene_loop_balanced peak genes todo : forall idx st,
  balanced st -> balanced (gene_loop peak genes idx todo st).
Proof.
  induction todo as [|gene todo IH]; intros idx st Hb; simpl; [done|].
  by apply IH, gene_body_balanced.
Qed.

Lemma annotate_balanced features peak st :
  balanced st -> balanced (annotate features peak st).
Proof.
  intros Hb. unfold annotate.
  destruct features as [|f fs].
  { unfold balanced in *. simpl. rewrite filter_snoc. simpl.
    by rewrite app_nil_r. }
  destruct (already_annotated (f :: fs)) as [[|]|]; [| |done].
  { unfold balanced in *. simpl. rewrite filter_snoc. simpl.
    by rewrite app_nil_r. }
  by apply gene_loop_balanced.
Qed.

Lemma peak_loop_balanced db peaks : forall st,
  balanced st -> balanced (peak_loop db peaks st).
Proof.
  unfold peak_loop.
  induction peaks as [|p peaks IH]; intros st Hb; simpl; [done|].
  apply IH. unfold peak_body. destruct (raised st); [done|].
  by apply annotate_balanced.
Qed.

(** The parents of what the loop emits are, in order, among the ids of the
    genes it walks. *)
Lemma emitted_from_parents peak genes todo : forall idx,
  (parent <$> emitted_from peak genes idx todo)
    `sublist_of` ((fun g => Some [id g]) <$> todo).
Proof.
  induction todo as [|g todo IH]; intros idx; simpl; [done|].
  destruct (emitted peak genes idx g) as [r|] eqn:Hr.
  - apply emitted_Some in Hr as ->. rewrite fmap_cons.
    unfold parent at 1. rewrite utr_feature_record_of.
    apply sublist_skip, IH.
  - apply sublist_cons, IH.
Qed.

Lemma records_parents features peak :
  (parent <$> records features peak)
    `sublist_of` ((fun g => Some [id g]) <$> genes_of features).
Proof.
  rewrite records_spec. destruct (already_annotated features) as [[|]|].
  - apply sublist_nil_l.
  - apply emitted_from_parents.
  - apply sublist_nil_l.
Qed.

Lemma in_region_spec seqid0 start0 end0 strand0 f :
  in_region seqid0 start0 end0 strand0 f = true <->
  seqid f = seqid0 /\ strand f = strand0 /\ start f <= end0 /\ end_ f >= start0.
Proof.
  unfold in_region.
  rewrite !andb_true_iff, !bool_decide_eq_true, Z.leb_le, Z.geb_le.
  intuition lia.
Qed.

(** When the step for a gene emits, and only then, the peak ends past the
    gene and does not reach over the gene's end and the next gene's start. *)
Lemma emitted_spec peak genes idx gene r :
  emitted peak genes idx gene = Some r <->
  r = utr_feature gene peak /\
  pend peak > end_ gene /\
  (forall next, genes !! (idx + 1)%nat = Some next ->
     ~ (pstart peak < end_ gene /\ pend peak > start next)).
Proof.
  unfold emitted.
  destruct (wholly_contained peak gene) eqn:Hc.
  { unfold wholly_contained in Hc. apply andb_true_iff in Hc as [_ Hc].
    split; [done|]. intros (_ & ? & _). lia. }
  unfold overlapping_next, extends_past.
  destruct (genes !! (idx + 1)%nat) as [next|].
  - destruct ((pstart peak <? end_ gene) && (pend peak >? start next)) eqn:Ho.
    + apply andb_true_iff in Ho as [? ?].
      split; [done|]. intros (_ & _ & Hn). destruct (Hn next eq_refl). lia.
    + apply andb_false_iff in Ho.
      destruct (Z.gtb_spec (pend peak) (end_ gene)).
      * split; [|by intros (-> & _)].
        intros [= <-]. split_and!; [done | lia |].
        intros next' [= <-]. lia.
      * split; [done|]. intros (_ & ? & _). lia.
  - destruct (Z.gtb_spec (pend peak) (end_ gene)).
    + split; [|by intros (-> & _)].
      intros [= <-]. split_and!; [done | lia | done].
    + split; [done|]. intros (_ & ? & _). lia.
Qed.

Lemma elem_of_script_out db files r :
  r ∈ out (script db files) <->
  exists p, p ∈ reached db (files forward_broad_peaks) /\
            r ∈ per_peak_records db p.
Proof.
  unfold script. rewrite peak_loop_out by done. simpl.
  rewrite elem_of_concat. split.
  - intros (l & (p & -> & Hp)%list_elem_of_fmap & Hr). eauto.
  - intros (p & Hp & Hr). exists (per_peak_records db p).
    split; [|done]. apply list_elem_of_fmap. eauto.
Qed.

Lemma elem_of_reached db peaks p : p ∈ reached db peaks -> p ∈ peaks.
Proof.
  intros Hp. destruct (reached_prefix db peaks) as [rest Hrest].
  rewrite Hrest. apply elem_of_app. by left.
Qed.

Lemma elem_of_features_near db peak f :
  f ∈ features_near db peak <->
  f ∈ db /\ seqid f = chr peak /\ strand f = "+" /\
  start f <= pend peak + maxDistanceFromTranscript /\
  end_ f >= pstart peak - maxDistanceFromTranscript.
Proof.
  unfold features_near, region.
  rewrite !list_elem_of_In, filter_In, in_region_spec. tauto.
Qed.

End ScriptMore.

Section ScriptExtras.
Import Script ScriptViews ScriptFacts ScriptMore Fixtures MoreFixtures.

(** X1.  Every record the script writes has its start before its end. *)
Theorem X1_records_have_positive_length
    (db : list Feature) (files : string -> list Peak) (r : Feature) :
  r ∈ out (script db files) -> start r < end_ r.
Proof.
  intros (p & _ & Hr)%elem_of_script_out.
  apply elem_of_records in Hr as (_ & idx & gene & _ & Hem).
  apply emitted_spec in Hem as (-> & Hpast & _). simpl. lia.
Qed.

Lemma X1_records_have_positive_length_witness :
  start (utr_feature gene_G peak_900_1200) <
  end_ (utr_feature gene_G peak_900_1200).
Proof.
  apply (X1_records_have_positive_length db_single files_forward).
  vm_compute. left.
Defined.

(** X2.  Every record the script writes comes from a peak of the forward
    file and a gene row of the database on the forward strand and on the
    peak's sequence, the gene lying within [maxDistanceFromTranscript] of
    the peak and ending before the peak's end; the record is the feature
    built from that gene and that peak. *)
Theorem X2_records_provenance
    (db : list Feature) (files : string -> list Peak) (r : Feature) :
  r ∈ out (script db files) ->
  exists p g,
    p ∈ files forward_broad_peaks /\
    g ∈ db /\
    featuretype g = "gene" /\
    strand g = "+" /\
    seqid g = chr p /\
    start g <= pend p + maxDistanceFromTranscript /\
    end_ g >= pstart p - maxDistanceFromTranscript /\
    end_ g < pend p /\
    r = utr_feature g p.
Proof.
  intros (p & Hp & Hr)%elem_of_script_out.
  apply elem_of_records in Hr as (_ & idx & g & Hidx & Hem).
  apply emitted_spec in Hem as (-> & Hpast & _).
  apply list_elem_of_lookup_2, genes_of_elem in Hidx as [Hnear Htype].
  apply elem_of_features_near in Hnear as (? & ? & ? & ? & ?).
  apply elem_of_reached in Hp.
  exists p, g. split_and!; try done. lia.
Qed.

Lemma X2_records_provenance_witness :
  exists p g, p ∈ files_forward forward_broad_peaks /\ g ∈ db_single /\
              utr_feature gene_G peak_900_1200 = utr_feature g p.
Proof.
  destruct (X2_records_provenance db_single files_forward
              (utr_feature gene_G peak_900_1200))
    as (p & g & Hp & Hg & _ & _ & _ & _ & _ & _ & Hr).
  - vm_compute. left.
  - exists p, g. split; [exact Hp|]. split; [exact Hg | exact Hr].
Defined.

(** X3.  The step for a gene emits a record exactly when the peak ends past
    the gene's end and does not reach over both the gene's end and the next
    gene's start; the record is then the feature built from the gene and
    the peak.  The containment test never decides an emission: it only
    chooses the message. *)
Theorem X3_emission_rule
    (peak : Peak) (genes : list Feature) (idx : nat) (gene r : Feature) :
  emitted peak genes idx gene = Some r <->
  r = utr_feature gene peak /\
  pend peak > end_ gene /\
  (forall next, genes !! (idx + 1)%nat = Some next ->
     ~ (pstart peak < end_ gene /\ pend peak > start next)).
Proof. apply emitted_spec. Qed.

(** X4.  When a peak that starts before a gene's end gives that gene a
    record and another gene follows in the list, the record ends at or
    before the start of the following gene. *)
Theorem X4_overlapping_peak_stops_before_next_gene
    (peak : Peak) (genes : list Feature) (idx : nat)
    (gene next r : Feature) :
  emitted peak genes idx gene = Some r ->
  genes !! (idx + 1)%nat = Some next ->
  pstart peak < end_ gene ->
  end_ r <= start next.
Proof.
  intros (-> & _ & Hnext)%emitted_spec Hn Hs.
  specialize (Hnext next Hn). simpl. lia.
Qed.

Lemma X4_overlapping_peak_stops_before_next_gene_witness :
  end_ (utr_feature gene_A peak_450_550) <= start gene_B.
Proof.
  apply (X4_overlapping_peak_stops_before_next_gene
           peak_450_550 db_neighbours 0 gene_A gene_B).
  - reflexivity.
  - reflexivity.
  - vm_compute. reflexivity.
Defined.

(** X5.  A peak adds at most one record per gene row near it. *)
Theorem X5_at_most_one_record_per_gene
    (features : list Feature) (peak : Peak) :
  (length (records features peak) <= length (genes_of features))%nat.
Proof.
  pose proof (sublist_length _ _ (records_parents features peak)) as H.
  by rewrite !length_fmap in H.
Qed.

(** X6.  When the gene rows near a peak have pairwise different ids, the
    records the peak adds have pairwise different parents. *)
Theorem X6_parents_distinct (features : list Feature) (peak : Peak) :
  unique_ids (genes_of features) ->
  NoDup (parent <$> records features peak).
Proof.
  intros Huniq.
  eapply sublist_NoDup; [|apply records_parents].
  unfold unique_ids in Huniq.
  assert (Inj (=) (=) (fun s : string => Some [s])) by (by intros s1 s2 [= ->]).
  apply (NoDup_fmap_2 (fun s : string => Some [s])) in Huniq.
  by rewrite <- list_fmap_compose in Huniq.
Qed.

Lemma X6_parents_distinct_witness :
  NoDup (parent <$> records (features_near db_neighbours peak_over_gap)
                            peak_over_gap).
Proof.
  apply X6_parents_distinct.
  apply (bool_decide_unpack _). vm_compute. reflexivity.
Defined.

(** X7.  What the script writes and prints is what each peak it gets
    through adds on its own, in the order of the forward file: a peak's
    records and messages do not depend on the peaks before it.  The loop
    gets through every peak of the file unless line 36 raises, which needs
    a [three_prime_UTR] row of negative length near a peak. *)
Theorem X7_script_output_by_peak
    (db : list Feature) (files : string -> list Peak) :
  let peaks := files forward_broad_peaks in
  out (script db files) = concat (per_peak_records db <$> reached db peaks) /\
  stdout (script db files) =
    concat (per_peak_messages db <$> reached db peaks) /\
  reached db peaks `prefix_of` peaks /\
  (raised (script db files) = None <-> reached db peaks = peaks) /\
  ((forall p u, p ∈ peaks -> u ∈ features_near db p ->
      featuretype u = "three_prime_UTR" -> start u <= end_ u + 1) ->
   reached db peaks = peaks).
Proof.
  unfold script. split_and!.
  - by rewrite peak_loop_out.
  - by rewrite peak_loop_stdout.
  - apply reached_prefix.
  - by apply peak_loop_raised.
  - intros Hrows. apply reached_all. intros p Hp.
    apply any_defined. apply Forall_forall. intros u Hu.
    apply list_elem_of_In, filter_In in Hu as [Hu Htype].
    unfold is_featuretype in Htype. apply bool_decide_eq_true in Htype.
    apply list_elem_of_In in Hu.
    pose proof (Hrows p u Hp Hu Htype). unfold feature_len. lia.
Qed.

(** X8.  After the script has run there are as many records in [out] as
    announcing messages on standard output. *)
Theorem X8_records_match_messages
    (db : list Feature) (files : string -> list Peak) :
  length (out (script db files)) =
  length (List.filter is_corresponds (stdout (script db files))).
Proof. by apply (peak_loop_balanced db). Qed.

(** X9.  A peak near which there are features, none of them a gene or a
    [three_prime_UTR], changes nothing: no record and no message. *)
Theorem X9_silent_peak
    (features : list Feature) (peak : Peak) (st : State) :
  features <> [] ->
  has_utr features = false ->
  genes_of features = [] ->
  annotate features peak st = st.
Proof.
  intros Hne Hutr%has_utr_false Hgenes. unfold annotate.
  destruct features as [|f fs]; [done|].
  unfold genes_of in Hgenes.
  by rewrite Hutr, Hgenes.
Qed.

Lemma X9_silent_peak_witness :
  annotate (features_near db_exon_only peak_900_1200) peak_900_1200 initial
    = initial.
Proof.
  apply X9_silent_peak.
  - vm_compute. discriminate.
  - reflexivity.
  - reflexivity.
Defined.

(** X19.  [three_prime_UTR] rows of length zero do not make a peak count
    as annotated: when every such row near the peak has its end one below
    its start, the test of line 36 is false and the genes near the peak are
    evaluated. *)
Theorem X19_empty_utr_rows_do_not_count
    (features : list Feature) (peak : Peak) (st : State) :
  features <> [] ->
  (forall u, u ∈ features -> featuretype u = "three_prime_UTR" ->
     end_ u = start u - 1) ->
  already_annotated features = Some false /\
  annotate features peak st =
    gene_loop peak (genes_of features) 0 (genes_of features) st.
Proof.
  intros Hne Hrows.
  assert (Hany : already_annotated features = Some false).
  { unfold already_annotated.
    rewrite <- (app_nil_r (List.filter _ features)).
    rewrite any_skips_empty; [done|].
    apply Forall_forall. intros u Hu.
    apply list_elem_of_In, filter_In in Hu as [Hu Htype].
    unfold is_featuretype in Htype. apply bool_decide_eq_true in Htype.
    apply list_elem_of_In in Hu.
    pose proof (Hrows u Hu Htype). unfold feature_len. lia. }
  split; [done|]. unfold annotate. destruct features as [|f fs]; [done|].
  by rewrite Hany.
Qed.

Lemma X19_empty_utr_rows_do_not_count_witness :
  exists r, records (features_near db_empty_utr peak_900_1200) peak_900_1200
              = [r] /\ start r = 1000 /\ end_ r = 1200.
Proof.
  destruct (X19_empty_utr_rows_do_not_count
              (features_near db_empty_utr peak_900_1200) peak_900_1200 initial)
    as [_ H].
  - vm_compute. discriminate.
  - intros u Hu Htype. vm_compute in Hu.
    apply elem_of_cons in Hu as [->|Hu]; [by vm_compute in Htype|].
    apply elem_of_cons in Hu as [->|Hu]; [reflexivity|].
    by apply elem_of_nil in Hu.
  - exists (utr_feature gene_G peak_900_1200). unfold records. rewrite H.
    split; [reflexivity|]. split; reflexivity.
Defined.

(** X20.  A [three_prime_UTR] row of negative length near a peak, met by
    line 36 before any row of positive length, ends the run with
    ValueError at that peak: the peaks before it have added their records
    to [out], nothing is added after, and [three_prime_UTRs.gff] is not
    written. *)
Theorem X20_negative_utr_row_aborts
    (db : list Feature) (files : string -> list Peak)
    (done_ rest : list Peak) (p : Peak)
    (before after : list Feature) (u : Feature) :
  files forward_broad_peaks = done_ ++ p :: rest ->
  reached db done_ = done_ ->
  List.filter (is_featuretype "three_prime_UTR") (features_near db p)
    = before ++ u :: after ->
  Forall (fun f => end_ f - start f + 1 = 0) before ->
  end_ u - start u + 1 < 0 ->
  raised (script db files) = Some ValueError /\
  out (script db files) = concat (per_peak_records db <$> done_) /\
  three_prime_UTRs_gff db files = None.
Proof.
  intros Hfile Hdone Hrows Hbefore Hu.
  assert (Hany : already_annotated (features_near db p) = None).
  { unfold already_annotated. rewrite Hrows.
    rewrite any_skips_empty by exact Hbefore. by apply any_negative. }
  assert (Hreached : reached db (done_ ++ p :: rest) = done_).
  { clear Hfile. induction done_ as [|q done_ IH]; simpl in *.
    - by rewrite Hany.
    - destruct (already_annotated (features_near db q)); [|done].
      injection Hdone as Hdone. by rewrite IH. }
  assert (Hraised : raised (script db files) = Some ValueError).
  { destruct (raised (script db files)) as [[]|] eqn:Hr; [done|].
    unfold script in Hr. apply peak_loop_raised in Hr; [|done].
    rewrite Hfile, Hreached in Hr.
    apply (f_equal length) in Hr. rewrite length_app in Hr. simpl in Hr. lia. }
  split_and!.
  - done.
  - unfold script. rewrite peak_loop_out by done. simpl.
    by rewrite Hfile, Hreached.
  - unfold three_prime_UTRs_gff. by rewrite Hraised.
Qed.

Lemma X20_negative_utr_row_aborts_witness :
  raised (script db_negative_utr files_forward) = Some ValueError /\
  three_prime_UTRs_gff db_negative_utr files_forward = None.
Proof.
  destruct (X20_negative_utr_row_aborts db_negative_utr files_forward
              [] [] peak_900_1200 [] [] utr_negative)
    as (H1 & _ & H3).
  - reflexivity.
  - reflexivity.
  - reflexivity.
  - constructor.
  - vm_compute. reflexivity.
  - split; [exact H1 | exact H3].
Defined.

End ScriptExtras.

(** * Further properties of [_main] and of the aggregation loop *)

Module MainMore.
Import Main MainFacts.

Lemma mkdir_if_missing_fs what dir fs x :
  x ∈ (mkdir_if_missing what dir fs).2 <-> x ∈ fs \/ x = dir.
Proof.
  unfold mkdir_if_missing. case_bool_decide; simpl.
  - split; [by left | by intros [?| ->]].
  - rewrite elem_of_union, elem_of_singleton. tauto.
Qed.

Lemma mkdir_if_missing_events what dir fs e :
  e ∈ (mkdir_if_missing what dir fs).1 ->
  e = LogInfo what \/ (e = Mkdir dir /\ dir ∉ fs).
Proof.
  unfold mkdir_if_missing. case_bool_decide; simpl.
  - by intros ?%elem_of_nil.
  - rewrite !elem_of_cons, elem_of_nil. intros [->|[->|[]]]; auto.
Qed.

(** The two ends of the checks. *)
Lemma perform_checks_spec gff_basename_of fs args :
  (perform_checks gff_basename_of fs args = ([], None) /\
   ~ (new_gff_fn gff_basename_of args ∈ fs /\ force args = false) /\
   ~ (override_utr args = true /\ extend_utr args = true)) \/
  (exists msg,
     perform_checks gff_basename_of fs args = ([LogError msg], Some 1) /\
     ((new_gff_fn gff_basename_of args ∈ fs /\ force args = false) \/
      (override_utr args = true /\ extend_utr args = true))).
Proof.
  unfold perform_checks.
  case_bool_decide as Hex; destruct (force args); simpl;
    destruct (override_utr args), (extend_utr args); simpl;
    first [ left; split; [done|]; split; intros [? ?]; done
          | right; eexists; split; [done|]; tauto ].
Qed.

Lemma seen_spec LOG_DIR CACHE_DIR fs x :
  x ∈ MainViews.seen LOG_DIR CACHE_DIR fs <->
  x ∈ fs \/ x = LOG_DIR \/ x = CACHE_DIR.
Proof. unfold MainViews.seen. rewrite !mkdir_if_missing_fs. tauto. Qed.

Lemma setup_events_spec LOG_DIR CACHE_DIR fs e :
  e ∈ MainViews.setup_events LOG_DIR CACHE_DIR fs ->
  (exists what, e = LogInfo what) \/
  (exists d, e = Mkdir d /\ (d ∉ fs) /\ (d = LOG_DIR \/ d = CACHE_DIR)).
Proof.
  unfold MainViews.setup_events.
  intros [H|H]%elem_of_app; apply mkdir_if_missing_events in H as [->|[-> Hd]];
    eauto 6.
  right. exists CACHE_DIR. split_and!; [done| |by right].
  intros Hin. apply Hd. apply mkdir_if_missing_fs. by left.
Qed.

Lemma main_shape LOG_DIR CACHE_DIR gff_basename_of fs args :
  _main LOG_DIR CACHE_DIR gff_basename_of fs args =
  let checks :=
    perform_checks gff_basename_of (MainViews.seen LOG_DIR CACHE_DIR fs) args in
  (MainViews.setup_events LOG_DIR CACHE_DIR fs ++ checks.1 ++
     clear_cache CACHE_DIR args,
   match checks.2 with
   | Some status => SystemExit status
   | None => NameError "bam_basename"
   end).
Proof.
  unfold _main, MainViews.seen, MainViews.setup_events.
  destruct (mkdir_if_missing "Make .log directory" LOG_DIR fs)
    as [ev_log fs1]; simpl.
  destruct (mkdir_if_missing "Make .cache directory" CACHE_DIR fs1)
    as [ev_cache fs2]; simpl.
  destruct (perform_checks gff_basename_of fs2 args) as [ev [status|]];
    by rewrite <- !app_assoc.
Qed.

Lemma main_parsing_exit LOG_DIR CACHE_DIR gff_basename_of fs status :
  _main_parsing LOG_DIR CACHE_DIR gff_basename_of fs (ParserExit status) =
  (MainViews.setup_events LOG_DIR CACHE_DIR fs, SystemExit status).
Proof.
  unfold _main_parsing, MainViews.setup_events.
  destruct (mkdir_if_missing "Make .log directory" LOG_DIR fs)
    as [ev_log fs1]; simpl.
  by destruct (mkdir_if_missing "Make .cache directory" CACHE_DIR fs1).
Qed.

Lemma main_outcome LOG_DIR CACHE_DIR gff_basename_of fs args :
  (_main LOG_DIR CACHE_DIR gff_basename_of fs args).2 = SystemExit 1 \/
  (_main LOG_DIR CACHE_DIR gff_basename_of fs args).2 = NameError "bam_basename".
Proof.
  rewrite main_shape. cbv beta iota zeta delta [fst snd].
  destruct (perform_checks_spec gff_basename_of
              (MainViews.seen LOG_DIR CACHE_DIR fs) args)
    as [(-> & _)|(msg & -> & _)]; simpl; auto.
Qed.

Lemma setup_events_no_work LOG_DIR CACHE_DIR fs :
  Forall (fun e => is_work e = false)
    (MainViews.setup_events LOG_DIR CACHE_DIR fs).
Proof.
  apply Forall_forall. intros e He.
  apply setup_events_spec in He as [[what ->]|(d & -> & _)]; done.
Qed.

Lemma main_no_work LOG_DIR CACHE_DIR gff_basename_of fs args :
  Forall (fun e => is_work e = false)
    (_main LOG_DIR CACHE_DIR gff_basename_of fs args).1.
Proof.
  rewrite main_shape. cbv beta iota zeta delta [fst].
  rewrite !Forall_app. split_and!.
  - apply setup_events_no_work.
  - destruct (perform_checks_spec gff_basename_of
                (MainViews.seen LOG_DIR CACHE_DIR fs) args)
      as [(-> & _)|(msg & -> & _)]; simpl; by repeat constructor.
  - apply clear_cache_no_work.
Qed.


Lemma clear_cache_spec CACHE_DIR args e :
  e ∈ clear_cache CACHE_DIR args <->
  keep_cache args = false /\
  (e = LogInfo "Clearing cache." \/ e = Rmtree CACHE_DIR).
Proof.
  unfold clear_cache. destruct (keep_cache args).
  - split; [by intros ?%elem_of_nil | by intros [? _]].
  - rewrite !elem_of_cons, elem_of_nil. tauto.
Qed.

Lemma last_clear_cache CACHE_DIR args pre :
  keep_cache args = false ->
  last (pre ++ clear_cache CACHE_DIR args) = Some (Rmtree CACHE_DIR).
Proof.
  intros Hk. unfold clear_cache. rewrite Hk.
  by rewrite (last_app_cons pre [Rmtree CACHE_DIR]), last_cons.
Qed.

Lemma aggregate_step_falsy a r : truthy r = false -> aggregate_step a r = a.
Proof. unfold aggregate_step. by intros ->. Qed.

Lemma fold_aggregate_truthy rs : forall a,
  fold_left aggregate_step rs a =
  fold_left aggregate_step (List.filter truthy rs) a.
Proof.
  induction rs as [|r rs IH]; intros a; simpl; [done|].
  destruct (truthy r) eqn:Hr; simpl.
  - apply IH.
  - by rewrite aggregate_step_falsy.
Qed.

End MainMore.

Section MainExtras.
Import Main MainFacts MainMore MainFixtures MoreFixtures.

Variables LOG_DIR CACHE_DIR : string.
Variable gff_basename_of : string -> string.

#[local] Abbreviation run fs args :=
  (_main LOG_DIR CACHE_DIR gff_basename_of fs args).
#[local] Abbreviation run_parsing fs parsed :=
  (_main_parsing LOG_DIR CACHE_DIR gff_basename_of fs parsed).

(** X10.  When the output file exists and [force] is not set, [_main] logs
    an error and leaves through [sys.exit(1)] before any stage from
    pre-processing on has run. *)
Theorem X10_existing_output_rejected (fs : gset string) (args : Args) :
  new_gff_fn gff_basename_of args ∈ fs ->
  force args = false ->
  (run fs args).2 = SystemExit 1 /\
  Forall (fun e => is_work e = false) (run fs args).1 /\
  exists msg, LogError msg ∈ (run fs args).1.
Proof.
  intros Hex Hforce. split_and!; [| apply main_no_work |].
  all: rewrite main_shape; cbv beta iota zeta delta [fst snd].
  all: assert (Hseen : new_gff_fn gff_basename_of args
                       ∈ MainViews.seen LOG_DIR CACHE_DIR fs)
         by (apply seen_spec; by left).
  all: destruct (perform_checks_spec gff_basename_of
                   (MainViews.seen LOG_DIR CACHE_DIR fs) args)
         as [(_ & Hno & _)|(msg & -> & _)]; [by destruct Hno|]; simpl.
  - done.
  - exists msg. rewrite elem_of_app. right. left.
Qed.


(** X12.  Whatever [parse_args] does, no stage from pre-processing on is
    among the events of [_main], and [_main] ends with status 0 only when
    the parser itself leaves with 0. *)
Theorem X12_no_stage_ever_runs (fs : gset string) (parsed : Parse) :
  Forall (fun e => is_work e = false) (run_parsing fs parsed).1 /\
  ((run_parsing fs parsed).2 = SystemExit 0 -> parsed = ParserExit 0).
Proof.
  destruct parsed as [args|status].
  - simpl. split; [apply main_no_work|].
    destruct (main_outcome LOG_DIR CACHE_DIR gff_basename_of fs args)
      as [-> | ->]; done.
  - rewrite main_parsing_exit. simpl. split.
    + apply setup_events_no_work.
    + by intros [= ->].
Qed.

(** X13.  The cache directory is removed exactly when [parse_args] has
    returned and [keep_cache] is not set, on either way [_main] then ends;
    the removal is then the last event.  When the parser leaves on its own
    nothing is removed, and no other directory is ever removed. *)
Theorem X13_cache_cleared_unless_kept (fs : gset string) (parsed : Parse) :
  (Rmtree CACHE_DIR ∈ (run_parsing fs parsed).1 <->
   exists args, parsed = Parsed args /\ keep_cache args = false) /\
  (forall args, parsed = Parsed args -> keep_cache args = false ->
     last (run_parsing fs parsed).1 = Some (Rmtree CACHE_DIR)) /\
  (forall d, Rmtree d ∈ (run_parsing fs parsed).1 -> d = CACHE_DIR).
Proof.
  assert (Hsetup : forall d,
            Rmtree d ∉ MainViews.setup_events LOG_DIR CACHE_DIR fs).
  { intros d He.
    apply setup_events_spec in He as [[what ?]|(d' & ? & _)]; done. }
  destruct parsed as [args|status].
  - simpl. rewrite main_shape. cbv beta iota zeta delta [fst snd].
    assert (Hchecks : forall d,
      Rmtree d ∉ (perform_checks gff_basename_of
                    (MainViews.seen LOG_DIR CACHE_DIR fs) args).1).
    { intros d.
      destruct (perform_checks_spec gff_basename_of
                  (MainViews.seen LOG_DIR CACHE_DIR fs) args)
        as [(-> & _)|(msg & -> & _)]; simpl.
      - by intros ?%elem_of_nil.
      - rewrite elem_of_cons, elem_of_nil. by intros [?|[]]. }
    split_and!.
    + rewrite !elem_of_app, clear_cache_spec. split.
      * intros [?|[?|[? _]]]; [by destruct (Hsetup CACHE_DIR)
                               | by destruct (Hchecks CACHE_DIR) | eauto].
      * intros (args' & [= <-] & ?). do 2 right. split; [done | by right].
    + intros args' [= <-] Hk. rewrite !app_assoc. by apply last_clear_cache.
    + intros d. rewrite !elem_of_app, clear_cache_spec.
      intros [?|[?|(_ & [?|?])]]; [by destruct (Hsetup d)
                                   | by destruct (Hchecks d)
                                   | done | congruence].
  - rewrite main_parsing_exit. simpl. split_and!.
    + split; [by intros ?%Hsetup | by intros (args & ? & _)].
    + by intros args ?.
    + by intros d ?%Hsetup.
Qed.

(** X14.  [_main] makes no directory that exists: the only directories it
    makes are the log and the cache directory, each only when missing. *)
Theorem X14_mkdir_only_missing
    (fs : gset string) (args : Args) (d : string) :
  Mkdir d ∈ (run fs args).1 ->
  (d ∉ fs) /\ (d = LOG_DIR \/ d = CACHE_DIR).
Proof.
  rewrite main_shape. cbv beta iota zeta delta [fst snd].
  assert (Hsetup : Mkdir d ∈ MainViews.setup_events LOG_DIR CACHE_DIR fs ->
                   (d ∉ fs) /\ (d = LOG_DIR \/ d = CACHE_DIR)).
  { intros He.
    apply setup_events_spec in He as [[what ?]|(d' & [= ->] & ? & ?)]; done. }
  destruct (perform_checks_spec gff_basename_of
              (MainViews.seen LOG_DIR CACHE_DIR fs) args)
    as [(-> & _)|(msg & -> & _)]; cbv beta iota zeta delta [fst snd].
  - rewrite !elem_of_app, clear_cache_spec, elem_of_nil.
    intros [?|[[]|(_ & [?|?])]]; [auto | done | done].
  - rewrite !elem_of_app, clear_cache_spec, elem_of_cons, elem_of_nil.
    intros [?|[[?|[]]|(_ & [?|?])]]; [auto | done | done | done].
Qed.

End MainExtras.

Section MainWitnesses.
Import Main MainFixtures MoreFixtures.

Lemma X10_existing_output_rejected_witness :
  (_main ".log" ".cache" basename_stub {["genes.new.gff"]} args_plain).2
    = SystemExit 1.
Proof.
  destruct (X10_existing_output_rejected ".log" ".cache" basename_stub
              {["genes.new.gff"]} args_plain) as (H & _ & _).
  - apply elem_of_singleton. reflexivity.
  - reflexivity.
  - exact H.
Defined.

Lemma X14_mkdir_only_missing_witness :
  (".log" ∉ (∅ : gset string)) /\ (".log" = ".log" \/ ".log" = ".cache").
Proof.
  apply (X14_mkdir_only_missing ".log" ".cache" basename_stub ∅
           args_both_flags ".log").
  vm_compute. right. left.
Defined.

End MainWitnesses.

Section AggregateExtras.
Import Main MainMore.

(** X15.  Results that are not truthy ([None], an empty dictionary) leave
    the annotations as they are: aggregating a stream gives what
    aggregating its truthy results gives. *)
Theorem X15_falsy_results_ignored (results : list Result) :
  aggregate results = aggregate (List.filter truthy results).
Proof. unfold aggregate. apply fold_aggregate_truthy. Qed.

End AggregateExtras.

(** * Properties of the pre-processing functions *)

Section PreprocessExtras.
Import Preprocess MoreFixtures.

Variable cached : string -> string.
Variables CACHE_DIR LOG_DIR : string.
Variable PYSAM_STRAND_ARGS : gmap string (list string).
Variable path_join : string -> string -> string.

(** X16.  [call_peaks] raises exactly when the strand's peaks file is not in
    the cache and MACS2 returns a non-zero code, and what it raises is the
    MACS2 error naming the strand's log; it starts MACS2 exactly when the
    peaks file is not in the cache. *)
Theorem X16_call_peaks_outcome
    (fs : gset string) (bam_basename strand : string) (exit_code : Z) :
  let res := call_peaks cached CACHE_DIR LOG_DIR path_join fs
               bam_basename strand exit_code in
  (forall e, res.2 = Some e <->
     (strand_peaks cached strand ∉ fs) /\ exit_code <> 0 /\
     e = MACS2Error ("Check " +:+ strand +:+ "_macs2.log.")) /\
  ((exists argv, Macs2 argv ∈ res.1) <-> strand_peaks cached strand ∉ fs).
Proof.
  unfold call_peaks.
  case_bool_decide as Hc; [|case_bool_decide as Hx]; simpl.
  - split.
    + intros e. split; [done | by intros (? & _)].
    + split; [|done]. intros (argv & Hin).
      apply elem_of_cons in Hin as [?|?%elem_of_nil]; done.
  - split.
    + intros e. split; [done | by intros (_ & ? & _)].
    + split; [done|]. intros _. eexists. right. left.
  - split.
    + intros e. split; [by intros [= <-] | by intros (_ & _ & ->)].
    + split; [done|]. intros _. eexists. right. left.
Qed.

(** X17.  [pysam_strand_split] raises exactly when the strand's BAM is not
    in the cache and the strand has no entry in [PYSAM_STRAND_ARGS]; it
    calls [pysam.view] exactly when the BAM is not in the cache and the
    strand has an entry; with the BAM in the cache it does nothing. *)
Theorem X17_pysam_strand_split_outcome
    (fs : gset string) (bam_basename BAM_IN strand : string) :
  let res := pysam_strand_split cached PYSAM_STRAND_ARGS fs
               bam_basename BAM_IN strand in
  (forall e, res.2 = Some e <->
     (strand_bam cached bam_basename strand ∉ fs) /\
     PYSAM_STRAND_ARGS !! strand = None /\ e = KeyError strand) /\
  ((exists argv, PysamView argv ∈ res.1) <->
     (strand_bam cached bam_basename strand ∉ fs) /\
     is_Some (PYSAM_STRAND_ARGS !! strand)) /\
  (strand_bam cached bam_basename strand ∈ fs -> res = ([], None)).
Proof.
  unfold pysam_strand_split.
  case_bool_decide as Hc; [|destruct (PYSAM_STRAND_ARGS !! strand) as [sa|]];
    simpl.
  - split_and!; [| |done].
    + intros e. split; [done | by intros (? & _)].
    + split; [by intros (argv & ?%elem_of_nil) | by intros (? & _)].
  - split_and!; [| |done].
    + intros e. split; [done | by intros (_ & ? & _)].
    + split; [eauto|]. intros _. eexists. right. left.
  - split_and!; [| |done].
    + intros e. split; [by intros [= <-] | by intros (_ & _ & ->)].
    + split; [|by intros (_ & [? ?])]. intros (argv & Hin).
      apply elem_of_cons in Hin as [?|?%elem_of_nil]; done.
Qed.

(** X18.  The BAM that [call_peaks] hands to MACS2 is the file that
    [pysam_strand_split] writes for the same base name and strand: the
    last three arguments of its [pysam.view] call are [-o], that file and
    the input BAM, and that file was not in the cache when it was written. *)
Theorem X18_split_feeds_call_peaks
    (fs1 fs2 : gset string) (bam_basename BAM_IN strand : string)
    (exit_code : Z) (view_argv macs2_argv : list string) :
  PysamView view_argv ∈
    (pysam_strand_split cached PYSAM_STRAND_ARGS fs1
       bam_basename BAM_IN strand).1 ->
  Macs2 macs2_argv ∈
    (call_peaks cached CACHE_DIR LOG_DIR path_join fs2
       bam_basename strand exit_code).1 ->
  exists bam front rest,
    (bam ∉ fs1) /\
    view_argv = front ++ ["-o"; bam; BAM_IN] /\
    macs2_argv = ["macs2"; "callpeak"; "-t"; bam] ++ rest.
Proof.
  unfold pysam_strand_split, call_peaks.
  case_bool_decide as Hc1; [by intros ?%elem_of_nil|].
  destruct (PYSAM_STRAND_ARGS !! strand) as [sa|]; simpl.
  2:{ intros [?|?%elem_of_nil]%elem_of_cons; done. }
  rewrite !elem_of_cons, elem_of_nil.
  intros [?|[[= ->]|[?|[]]]]; [done | | done].
  case_bool_decide as Hc2; [|case_bool_decide as Hx]; simpl;
    rewrite ?elem_of_cons, ?elem_of_nil; intros Hm.
  - by destruct Hm as [?|[]].
  - destruct Hm as [?|[[= ->]|[?|[?|[]]]]]; try done.
    exists (strand_bam cached bam_basename strand),
           (["--threads"; "6"; "-b"] ++ sa). eexists.
    split_and!; [done| |reflexivity]. by rewrite <- app_assoc.
  - destruct Hm as [?|[[= ->]|[?|[?|[]]]]]; try done.
    exists (strand_bam cached bam_basename strand),
           (["--threads"; "6"; "-b"] ++ sa). eexists.
    split_and!; [done| |reflexivity]. by rewrite <- app_assoc.
Qed.

End PreprocessExtras.

Section PreprocessWitnesses.
Import Preprocess MoreFixtures.

Lemma X18_split_feeds_call_peaks_witness :
  exists bam front rest,
    ["--threads"; "6"; "-b"; "-F"; "20"; "-o"; ".cache/reads.forward.bam";
     "reads.bam"] = front ++ ["-o"; bam; "reads.bam"] /\
    ["macs2"; "callpeak"; "-t"; ".cache/reads.forward.bam"; "-n"; "forward";
     "--nomodel"; "--extsize"; "100"; "--broad"; "--outdir"; ".cache"]
      = ["macs2"; "callpeak"; "-t"; bam] ++ rest.
Proof.
  destruct (X18_split_feeds_call_peaks cached_stub ".cache" ".log"
              strand_args_stub path_join_stub ∅ ∅ "reads" "reads.bam"
              "forward" 0
              ["--threads"; "6"; "-b"; "-F"; "20"; "-o";
               ".cache/reads.forward.bam"; "reads.bam"]
              ["macs2"; "callpeak"; "-t"; ".cache/reads.forward.bam"; "-n";
               "forward"; "--nomodel"; "--extsize"; "100"; "--broad";
               "--outdir"; ".cache"])
    as (bam & front & rest & _ & H1 & H2).
  - vm_compute. right. left.
  - vm_compute. right. left.
  - exists bam, front, rest. split; [exact H1 | exact H2].
Defined.

End PreprocessWitnesses.
